(** * QUARK: transformation helpers, the ACL Ising mapping and the device shim

    A shallow embedding of
    - [modules/applications/QML/transformations/Transformation.py],
    - [modules/applications/optimization/ACL/mappings/ISING.py],
    - [devices/HelperClass.py],
    followed by the properties proved about them.

    Conventions.  Python exceptions are the [Raise] branch of [result].
    A [float64] is a [spec_float] of the IEEE-754 specification shipped with
    the Standard Library, at precision 53 and maximal exponent 1024, so every
    arithmetic step rounds as the hardware does.  Python dictionaries with
    string keys are [gmap string _].  A two-dimensional array carries its
    number of columns next to its rows, because numpy keeps the shape of an
    array that has no rows. *)

From Stdlib Require Import ZArith Lia Bool List QArith Qcanon Qpower Qfield String Ascii.
From Stdlib Require Import Floats.SpecFloat.
From stdpp Require Import base option numbers list strings gmap.

Open Scope Z_scope.
Open Scope nat_scope.

(* ===================================================================== *)
(** * Part I: the embedding                                               *)
(* ===================================================================== *)

(** ** Python results *)

Inductive exn : Type :=
  | ZeroDivisionError
  | IndexError
  | ValueError
  | TypeError.

Inductive result (A : Type) : Type :=
  | Ok (a : A)
  | Raise (e : exn).
Arguments Ok {A} a.
Arguments Raise {A} e.

#[export] Instance result_ret : MRet result := fun A a => Ok a.
#[export] Instance result_bind : MBind result := fun A B k r =>
  match r with
  | Ok a => k a
  | Raise e => Raise e
  end.

(** [for x in l: s = body(s, x)], stopping at the first exception. *)
Fixpoint for_loop {A S : Type} (body : S -> A -> result S) (l : list A) (s : S)
  : result S :=
  match l with
  | [] => Ok s
  | x :: l' => s' ← body s x; for_loop body l' s'
  end.

Fixpoint enumerate_from {A : Type} (i : nat) (l : list A) : list (nat * A) :=
  match l with
  | [] => []
  | x :: l' => (i, x) :: enumerate_from (S i) l'
  end.

Definition enumerate {A : Type} (l : list A) : list (nat * A) := enumerate_from 0 l.

Definition range (n : nat) : list nat := seq 0 n.

(** [a // b] on non-negative integers. *)
Definition floordiv (a b : nat) : result nat :=
  if decide (b = 0) then Raise ZeroDivisionError else Ok (a / b).

(** ** binary64 and binary32 *)

Module F64.
Definition prec : Z := 53.
Definition emax : Z := 1024.
Definition zero : spec_float := S754_zero false.

(** The literal [0.5]. *)
Definition half : spec_float := S754_finite false 4503599627370496 (-53).

(** The literal [-1]. *)
Definition minus_one : spec_float := S754_finite true 4503599627370496 (-52).

(** Conversion of a Python or int64 integer. *)
Definition of_int (z : Z) : spec_float := binary_normalize prec emax z 0 false.
Definition add : spec_float -> spec_float -> spec_float := SFadd prec emax.
Definition div : spec_float -> spec_float -> spec_float := SFdiv prec emax.
Definition eqb : spec_float -> spec_float -> bool := SFeqb.

(** The normalised representation of [2^k]. *)
Definition pow2 (k : Z) : spec_float :=
  S754_finite false 4503599627370496 (k - 52).

(** The rational a floating-point number stands for (0 for the specials). *)
Definition to_Q (x : spec_float) : Q :=
  match x with
  | S754_finite s m e =>
      (inject_Z (cond_Zopp s (Z.pos m)) * Qpower (2 # 1) e)%Q
  | _ => 0%Q
  end.
End F64.

Module F32.
Definition prec : Z := 24.
Definition emax : Z := 128.
(** [x.astype(np.float32)] on one entry: round to nearest even at the
    narrower precision, overflow to infinity. *)
Definition of_f64 (x : spec_float) : spec_float :=
  match x with
  | S754_finite s m e => binary_round prec emax s m e
  | _ => x
  end.
End F32.

(** ** itertools *)

Module Itertools.
(** [product] over a list of pools, as the library documents it:
    [result = [[]]; for pool in pools: result = [x+[y] for x in result for y in pool]]. *)
Definition product_step {A : Type} (res : list (list A)) (pool : list A)
  : list (list A) :=
  flat_map (fun x => List.map (fun y => x ++ [y]) pool) res.

Definition product_pools {A : Type} (pools : list (list A)) : list (list A) :=
  fold_left product_step pools [[]].

(** [product(pool, repeat=r)]. *)
Definition product {A : Type} (pool : list A) (r : nat) : list (list A) :=
  product_pools (replicate r pool).

(** [more_itertools.locate(iterable, pred)]: indices of the items that
    satisfy [pred]. *)
Fixpoint locate_from {A : Type} (pred : A -> bool) (i : nat) (l : list A)
  : list nat :=
  match l with
  | [] => []
  | a :: l' =>
      if pred a then i :: locate_from pred (S i) l'
      else locate_from pred (S i) l'
  end.

Definition locate {A : Type} (l : list A) (pred : A -> bool) : list nat :=
  locate_from pred 0 l.
End Itertools.

(** ** numpy, as far as the three files use it *)

Module Np.
Record ndarray2 (A : Type) : Type := Array2 {
  ncols : nat;
  rows : list (list A)
}.
Arguments Array2 {A} ncols rows.
Arguments ncols {A} _.
Arguments rows {A} _.

Definition nrows {A} (a : ndarray2 A) : nat := length (rows a).

(** Shape invariant of a two-dimensional array. *)
Definition wf {A} (a : ndarray2 A) : Prop :=
  Forall (fun row => length row = ncols a) (rows a).

(** [np.empty((r, c))]: the entries are whatever the memory holds,
    here the function [uninit]. *)
Definition empty {A} (uninit : nat -> nat -> A) (r c : nat) : ndarray2 A :=
  Array2 c (List.map (fun i => List.map (uninit i) (seq 0 c)) (seq 0 r)).

Definition zeros (r c : nat) : ndarray2 spec_float :=
  Array2 c (replicate r (replicate c F64.zero)).

(** [a[k] = row] for a one-dimensional [row]. *)
Definition setitem_row {A} (a : ndarray2 A) (k : nat) (row : list A)
  : result (ndarray2 A) :=
  if decide (k < nrows a) then
    if decide (length row = ncols a) then Ok (Array2 (ncols a) (<[k := row]> (rows a)))
    else if decide (length row = 1) then
      Ok (Array2 (ncols a) (<[k := flat_map (replicate (ncols a)) row]> (rows a)))
    else Raise ValueError
  else Raise IndexError.

(** [a[idx, 1:]]. *)
Definition getitem_row_tail {A} (a : ndarray2 A) (idx : nat) : result (list A) :=
  match rows a !! idx with
  | Some row => Ok (drop 1 row)
  | None => Raise IndexError
  end.

(** [a[:, 1:]]. *)
Definition tail_columns {A} (a : ndarray2 A) : ndarray2 A :=
  Array2 (ncols a - 1) (List.map (drop 1) (rows a)).

(** [np.tile(row, (reps, 1))] for a one-dimensional [row]. *)
Definition tile {A} (row : list A) (reps : nat) : ndarray2 A :=
  Array2 (length row) (replicate reps row).

(** Broadcasting of [src] to the shape [(r, c)]. *)
Definition broadcast_to {A} (src : ndarray2 A) (r c : nat)
  : result (list (list A)) :=
  if decide ((nrows src = r \/ nrows src = 1) /\ (ncols src = c \/ ncols src = 1))
  then
    let wide :=
      if decide (ncols src = c) then rows src
      else List.map (flat_map (replicate c)) (rows src) in
    Ok (if decide (nrows src = r) then wide else flat_map (replicate r) wide)
  else Raise ValueError.

(** [a[start:stop, :] += src]. *)
Definition iadd_slice (a : ndarray2 spec_float) (start stop : nat)
    (src : ndarray2 spec_float) : result (ndarray2 spec_float) :=
  let view := take (stop - start) (drop start (rows a)) in
  bs ← broadcast_to src (length view) (ncols a);
  Ok (Array2 (ncols a)
        (take start (rows a)
         ++ zip_with (zip_with F64.add) view bs
         ++ drop (start + length view) (rows a))).

(** [np.repeat(a, repeats, axis=0)]. *)
Definition repeat_rows {A} (a : ndarray2 A) (repeats : list nat)
  : result (ndarray2 A) :=
  if decide (length repeats = nrows a) then
    Ok (Array2 (ncols a) (concat (zip_with replicate repeats (rows a))))
  else
    match repeats with
    | [n] => Ok (Array2 (ncols a) (flat_map (replicate n) (rows a)))
    | _ => Raise ValueError
    end.

(** [a.reshape(r, c)], row-major. *)
Definition reshape {A} (a : ndarray2 A) (r c : nat) : result (ndarray2 A) :=
  let flat := concat (rows a) in
  if decide (length flat = r * c) then
    Ok (Array2 c (List.map (fun i => take c (drop (i * c) flat)) (seq 0 r)))
  else Raise ValueError.

(** [a + b] for two arrays of one shape. *)
Definition add (a b : ndarray2 spec_float) : result (ndarray2 spec_float) :=
  if decide (nrows a = nrows b /\ ncols a = ncols b) then
    Ok (Array2 (ncols a) (zip_with (zip_with F64.add) (rows a) (rows b)))
  else Raise ValueError.

(** [np.hstack((a, b))]. *)
Definition hstack {A} (a b : ndarray2 A) : result (ndarray2 A) :=
  if decide (nrows a = nrows b) then
    Ok (Array2 (ncols a + ncols b) (zip_with app (rows a) (rows b)))
  else Raise ValueError.

Definition map2 {A B} (f : A -> B) (a : ndarray2 A) : ndarray2 B :=
  Array2 (ncols a) (List.map (List.map f) (rows a)).

(** [np.arange(n).reshape(-1, 1)]. *)
Definition arange_column (n : nat) : ndarray2 Z :=
  Array2 1 (List.map (fun k => [Z.of_nat k]) (seq 0 n)).

(** An array of any rank: its shape and its entries in iteration order. *)
Record ndarray (A : Type) : Type := Array {
  shape : list nat;
  data : list A
}.
Arguments Array {A} shape data.
Arguments shape {A} _.
Arguments data {A} _.
End Np.

(** ** Python values *)

#[local] Unset Elimination Schemes.
Inductive value : Type :=
  | VNone
  | VBool (b : bool)
  | VInt (z : Z)
  | VFloat (x : spec_float)
  | VStr (s : string)
  | VList (l : list value)
  | VDict (d : gmap string value).
#[local] Set Elimination Schemes.

Abbreviation dict := (gmap string value).

(** [obj[key] = v] for a string key: only a dictionary accepts it; [None],
    numbers and strings do not support item assignment and a list wants an
    integer index, each a [TypeError]. *)
Definition setitem (obj : value) (key : string) (v : value) : result value :=
  match obj with
  | VDict d => Ok (VDict (<[key := v]> d))
  | _ => Raise TypeError
  end.

(** [l[i] = x] on a one-dimensional array. *)
Definition setitem_index {A : Type} (l : list A) (i : nat) (x : A) : result (list A) :=
  if decide (i < length l) then Ok (<[i := x]> l) else Raise IndexError.

(** ** modules/applications/QML/transformations/Transformation.py *)

Module Transformation.

(** The methods a subclass supplies or inherits. *)
Record class : Type := {
  transform : dict -> dict -> result value;
  reverse_transform : dict -> result value
}.

(** The body of [Transformation.reverse_transform]: a bare [return]. *)
Definition default_reverse_transform (solution : dict) : result value := Ok VNone.

(** A subclass that implements [transform] and inherits the rest. *)
Definition inheriting (transform : dict -> dict -> result value) : class :=
  {| transform := transform; reverse_transform := default_reverse_transform |}.

Section Timed.
(** [utils.start_time_measurement] and [utils.end_time_measurement] are
    not among the sources; they are parameters here. *)
Variable Time : Type.
Variable start_time_measurement : unit -> Time.
Variable end_time_measurement : Time -> Time.

Definition preprocess (self : class) (input_data config : dict)
  : result (value * Time) :=
  let start := start_time_measurement tt in
  output ← transform self input_data config;
  Ok (output, end_time_measurement start).

(** When [reverse_transform] hands back [input_data] itself the two
    assignments also change [input_data]; neither touches the key read
    afterwards, so the values below are those of the aliased run too. *)
Definition postprocess (self : class) (input_data config : dict)
  : result (value * Time) :=
  let start := start_time_measurement tt in
  output ← reverse_transform self input_data;
  output ← setitem output "Transformation" (VBool true);
  output ← match input_data !! "inference" with
           | Some inference => setitem output "inference" inference
           | None => Ok output
           end;
  Ok (output, end_time_measurement start).
End Timed.

(** One bin centre the way [compute_discretization] evaluates it:
    [c / n + 0.5 / n]. *)
Definition normalized_coord (n c : nat) : spec_float :=
  F64.add (F64.div (F64.of_int (Z.of_nat c)) (F64.of_int (Z.of_nat n)))
          (F64.div F64.half (F64.of_int (Z.of_nat n))).

(** One bin centre the way [compute_discretization_efficient] evaluates it:
    [(float(c) + 0.5) / n]. *)
Definition normalized_coord_efficient (n c : nat) : spec_float :=
  F64.div (F64.add (F64.of_int (Z.of_nat c)) F64.half) (F64.of_int (Z.of_nat n)).

Definition compute_discretization (uninit : nat -> nat -> spec_float)
    (n_qubits n_registered : nat) : result (Np.ndarray2 spec_float) :=
  q ← floordiv n_qubits n_registered;
  let n := 2 ^ q in
  let n_bins := n ^ n_registered in
  let bin_data := Np.empty uninit n_bins (n_registered + 1) in
  for_loop
    (fun bin_data '(k, coords) =>
       let normalized_coords := List.map (normalized_coord n) coords in
       Np.setitem_row bin_data k (F64.of_int (Z.of_nat k) :: normalized_coords))
    (enumerate (Itertools.product (range n) n_registered))
    bin_data.

Definition compute_discretization_efficient (n_qubits n_registers : nat)
  : result (Np.ndarray2 spec_float) :=
  q ← floordiv n_qubits n_registers;
  let n := 2 ^ q in
  let n_bins := n ^ n_registers in
  let coords := Np.Array2 n_registers (Itertools.product (range n) n_registers) in
  let normalized_coords := Np.map2 (normalized_coord_efficient n) coords in
  Np.hstack (Np.map2 F64.of_int (Np.arange_column n_bins)) normalized_coords.

(** [width = 1 / len(bin_data) ** (1 / n_registers)]: both divisions can
    raise; the quotient itself is only used to scale the random noise. *)
Definition check_width (len_bin_data n_registers : nat) : result unit :=
  if decide (n_registers = 0) then Raise ZeroDivisionError
  else if decide (len_bin_data = 0) then Raise ZeroDivisionError
  else Ok tt.

(** The body of the loop of [generate_samples], on the state
    [(points, position)] and the item [(idx, value)]. *)
Definition add_bin (bin_data : Np.ndarray2 spec_float)
    (state : Np.ndarray2 spec_float * nat) (item : nat * nat)
  : result (Np.ndarray2 spec_float * nat) :=
  let '(points, position) := state in
  let '(idx, value) := item in
  bin_coords ← Np.getitem_row_tail bin_data idx;
  points ← Np.iadd_slice points position (position + value)
             (Np.tile bin_coords value);
  Ok (points, position + value).

Section Sampling.
(** [0.5 * width * np.random.uniform(low=-1, high=1, size=(n_shots, n_registers))],
    given [len(bin_data)], [n_registers] and [n_shots]: the random draw
    is a parameter. *)
Variable scaled_uniform : nat -> nat -> nat -> Np.ndarray2 spec_float.

Definition generate_samples (results : list nat) (bin_data : Np.ndarray2 spec_float)
    (n_registers : nat) (noisy : bool) : result (Np.ndarray2 spec_float) :=
  let n_shots := sum_list results in
  _ ← check_width (Np.nrows bin_data) n_registers;
  let points :=
    if noisy then scaled_uniform (Np.nrows bin_data) n_registers n_shots
    else Np.zeros n_shots n_registers in
  '(points, _) ← for_loop (add_bin bin_data) (enumerate results) (points, 0);
  Ok (Np.map2 F32.of_f64 points).

Definition generate_samples_efficient (results : list nat)
    (bin_data : Np.ndarray2 spec_float) (n_registers : nat) (noisy : bool)
  : result (Np.ndarray2 spec_float) :=
  let n_shots := sum_list results in
  _ ← check_width (Np.nrows bin_data) n_registers;
  let noise :=
    if noisy then scaled_uniform (Np.nrows bin_data) n_registers n_shots
    else Np.zeros n_shots n_registers in
  let bin_coords := Np.tail_columns bin_data in
  expanded_bin_coords ← Np.repeat_rows bin_coords results;
  expanded_bin_coords ← Np.reshape expanded_bin_coords n_shots n_registers;
  points ← Np.add expanded_bin_coords noise;
  Ok (Np.map2 F32.of_f64 points).
End Sampling.
End Transformation.

(** ** devices/HelperClass.py *)

Module HelperClass.
Section WithDevice.
(** [devices/Device.py] is not among the sources: the constructor of
    the base class, acting on the attributes of [self], is a parameter. *)
Variable Device__init__ : dict -> string -> result dict.

Definition __init__ (self : dict) (device_name : string) : result dict :=
  self ← Device__init__ self device_name;
  Ok (<["device" := VStr device_name]> self).
End WithDevice.
End HelperClass.

(** ** modules/applications/optimization/ACL/mappings/ISING.py *)

(** The element types [_convert_ising_to_qubo] is run on: what [0] is in
    the type and which entries compare equal to [-1]. *)
Class Dtype (A : Type) : Type := {
  dt_zero : A;
  dt_eq_minus_one : A -> bool;
  dt_zero_not_minus_one : dt_eq_minus_one dt_zero = false
}.

#[export] Instance int64_dtype : Dtype Z :=
  {| dt_zero := 0%Z;
     dt_eq_minus_one := fun z => Z.eqb z (-1);
     dt_zero_not_minus_one := eq_refl |}.

#[export] Instance float64_dtype : Dtype spec_float :=
  {| dt_zero := F64.zero;
     dt_eq_minus_one := fun x => F64.eqb x F64.minus_one;
     dt_zero_not_minus_one := eq_refl |}.

Module Ising.

(** *** The problem dictionary exported by pulp *)

(** A JSON number or [None]. *)
Abbreviation number := Qc.

Record variable_dict : Type := {
  var_name : string;
  var_cat : string;
  var_lowBound : option number;
  var_upBound : option number
}.

Record coefficient_dict : Type := {
  coef_name : string;
  coef_value : number
}.

Record constraint_dict : Type := {
  con_name : string;
  con_sense : Z;
  con_constant : number;
  con_coefficients : list coefficient_dict
}.

Record problem_dict : Type := {
  variables : list variable_dict;
  objective_coefficients : list coefficient_dict;
  parameters_sense : Z;
  constraints : list constraint_dict
}.

(** *** qiskit_optimization.QuadraticProgram

    The library is external.  A program is recorded as what the calls
    made on it declare, in the order of the calls; the checks the library
    runs on its arguments are not part of this repository. *)

Inductive qp_variable : Type :=
  | BinaryVar (name : string)
  | IntegerVar (lowerbound upperbound : option number) (name : string).

Inductive qp_objective : Type :=
  | Minimize (linear : gmap string number)
  | Maximize (linear : gmap string number).

Record qp_constraint : Type := {
  lc_linear : gmap string number;
  lc_sense : string;
  lc_rhs : number;
  lc_name : string
}.

Record QuadraticProgram : Type := {
  qp_variables : list qp_variable;
  qp_objective_ : option qp_objective;
  qp_constraints : list qp_constraint
}.

Definition new_QuadraticProgram : QuadraticProgram :=
  {| qp_variables := []; qp_objective_ := None; qp_constraints := [] |}.

Definition binary_var (qp : QuadraticProgram) (name : string) : QuadraticProgram :=
  {| qp_variables := qp_variables qp ++ [BinaryVar name];
     qp_objective_ := qp_objective_ qp;
     qp_constraints := qp_constraints qp |}.

Definition integer_var (qp : QuadraticProgram) (lowerbound upperbound : option number)
    (name : string) : QuadraticProgram :=
  {| qp_variables := qp_variables qp ++ [IntegerVar lowerbound upperbound name];
     qp_objective_ := qp_objective_ qp;
     qp_constraints := qp_constraints qp |}.

Definition maximize (qp : QuadraticProgram) (linear : gmap string number)
  : QuadraticProgram :=
  {| qp_variables := qp_variables qp;
     qp_objective_ := Some (Maximize linear);
     qp_constraints := qp_constraints qp |}.

Definition minimize (qp : QuadraticProgram) (linear : gmap string number)
  : QuadraticProgram :=
  {| qp_variables := qp_variables qp;
     qp_objective_ := Some (Minimize linear);
     qp_constraints := qp_constraints qp |}.

Definition linear_constraint (qp : QuadraticProgram) (linear : gmap string number)
    (sense : string) (rhs : number) (name : string) : QuadraticProgram :=
  {| qp_variables := qp_variables qp;
     qp_objective_ := qp_objective_ qp;
     qp_constraints := qp_constraints qp
       ++ [{| lc_linear := linear; lc_sense := sense; lc_rhs := rhs; lc_name := name |}] |}.

Definition variable_name (v : qp_variable) : string :=
  match v with
  | BinaryVar name => name
  | IntegerVar _ _ name => name
  end.

(** *** map_pulp_to_qiskit *)

(** [args = {}; for arg in coefficients: args[arg["name"]] = arg["value"]]. *)
Definition arguments_of (coefficients : list coefficient_dict) : gmap string number :=
  fold_left (fun args arg => <[coef_name arg := coef_value arg]> args) coefficients ∅.

(** [x == z] for a bound [x] that may be [None]. *)
Definition bound_eq (x : option number) (z : Z) : bool :=
  bool_decide (x = Some (Qc_of_Z z)).

Definition add_variable (qp : QuadraticProgram) (variable_dict : variable_dict)
  : QuadraticProgram :=
  if String.eqb (var_cat variable_dict) "Integer" then
    let lb := var_lowBound variable_dict in
    let ub := var_upBound variable_dict in
    let name := var_name variable_dict in
    if bound_eq lb 0 && bound_eq ub 1 then binary_var qp name
    else integer_var qp lb ub name
  else qp.

Definition add_constraint (qp : QuadraticProgram) (constraint : constraint_dict)
  : QuadraticProgram :=
  let const_arguments := arguments_of (con_coefficients constraint) in
  let sense := con_sense constraint in
  let const_sense :=
    if Z.eqb sense (-1) then "LE"
    else if Z.eqb sense 1 then "GE"
    else "E" in
  linear_constraint qp const_arguments const_sense
    (Qc_of_Z (-1) * con_constant constraint)%Qc (con_name constraint).

Definition map_pulp_to_qiskit (problem : problem_dict) : QuadraticProgram :=
  let qp := new_QuadraticProgram in
  let qp := fold_left add_variable (variables problem) qp in
  let obj_arguments := arguments_of (objective_coefficients problem) in
  let qp :=
    if Z.eqb (parameters_sense problem) (-1) then maximize qp obj_arguments
    else minimize qp obj_arguments in
  fold_left add_constraint (constraints problem) qp.

(** *** map *)

(** A complex128 number. *)
Definition complex : Type := spec_float * spec_float.
Definition complex_zero : complex := (F64.zero, F64.zero).

(** The operator [to_ising] returns: its terms as [(pauli_str, coeff)]. *)
Record PauliSumOp : Type := {
  num_qubits : nat;
  terms : list (string * complex)
}.

Inductive ising_array : Type :=
  | Vector (t : list complex)
  | Matrix (j : list (list complex)).

Record self_state : Type := {
  submodule_options : list string;
  global_variables : value
}.

(** [Ising()]. *)
Definition new_Ising : self_state :=
  {| submodule_options := ["QAOA"; "QiskitQAOA"]; global_variables := VInt 0 |}.

Definition is_Z (a : ascii) : bool := Ascii.eqb a "Z".

(** [index_pos_list] of one term. *)
Definition z_positions (pauli_str : string) : list nat :=
  Itertools.locate (list_ascii_of_string pauli_str) is_Z.

(** [j_matrix[i][k] = coeff]. *)
Definition setitem_index2 (j_matrix : list (list complex)) (i k : nat) (coeff : complex)
  : result (list (list complex)) :=
  match j_matrix !! i with
  | Some row => row ← setitem_index row k coeff; Ok (<[i := row]> j_matrix)
  | None => Raise IndexError
  end.

(** The body of the loop over the terms of the operator. *)
Definition record_term (tj : list complex * list (list complex))
    (term : string * complex) : result (list complex * list (list complex)) :=
  let '(t_matrix, j_matrix) := tj in
  let '(pauli_str, coeff) := term in
  match z_positions pauli_str with
  | [i] => t_matrix ← setitem_index t_matrix i coeff; Ok (t_matrix, j_matrix)
  | [i; k] => j_matrix ← setitem_index2 j_matrix i k coeff; Ok (t_matrix, j_matrix)
  | _ => Ok (t_matrix, j_matrix)
  end.

(** Reading [J] and [t] off the operator. *)
Definition extract (qubitOp : PauliSumOp)
  : result (list complex * list (list complex)) :=
  let t_matrix := replicate (num_qubits qubitOp) complex_zero in
  let j_matrix :=
    replicate (num_qubits qubitOp) (replicate (num_qubits qubitOp) complex_zero) in
  for_loop record_term (terms qubitOp) (t_matrix, j_matrix).

Section External.
(** [QuadraticProgramToQubo().convert] and [QuadraticProgram.to_ising]
    belong to qiskit-optimization, the timer to [utils]. *)
Variable convert : QuadraticProgram -> QuadraticProgram.
Variable to_ising : QuadraticProgram -> PauliSumOp * number.
Variable Time : Type.
Variable start_time_measurement : unit -> Time.
Variable end_time_measurement : Time -> Time.

Definition map (self : self_state) (problem : problem_dict) (config : dict)
  : result (self_state * (gmap string ising_array * Time)) :=
  let start := start_time_measurement tt in
  let qp := map_pulp_to_qiskit problem in
  let qubo := convert qp in
  let variables := List.map variable_name (qp_variables qubo) in
  let qubitOp := fst (to_ising qubo) in
  let self :=
    {| submodule_options := submodule_options self;
       global_variables := VList (List.map VStr variables) |} in
  '(t_matrix, j_matrix) ← extract qubitOp;
  Ok (self,
      (<["J" := Matrix j_matrix]> (<["t" := Vector t_matrix]> ∅),
       end_time_measurement start)).
End External.

(** The [nditer] loop: visit every position once, in order, and write
    [0] over an entry that compares equal to [-1]. *)
Definition _convert_ising_to_qubo {A : Type} `{Dtype A} (solution : Np.ndarray A)
  : Np.ndarray A :=
  let solution := Np.Array (Np.shape solution) (Np.data solution) in
  Np.Array (Np.shape solution)
    (fold_left
       (fun data i =>
          match data !! i with
          | Some x => if dt_eq_minus_one x then <[i := dt_zero]> data else data
          | None => data
          end)
       (seq 0 (length (Np.data solution)))
       (Np.data solution)).
(** *** reverse_map and get_default_submodule

    These two raise exceptions beyond the four of [exn]. *)

Inductive exception : Type :=
  | Builtin (e : exn)
  | KeyError
  | NotImplementedError (message : string).

Inductive outcome (A : Type) : Type :=
  | Returns (a : A)
  | Raises (e : exception).
Arguments Returns {A} a.
Arguments Raises {A} e.

#[export] Instance outcome_ret : MRet outcome := fun A a => Returns a.
#[export] Instance outcome_bind : MBind outcome := fun A B k r =>
  match r with
  | Returns a => k a
  | Raises e => Raises e
  end.

(** [for x in l: s = body(s, x)] for a body that raises an [exception]. *)
Fixpoint for_each {A S : Type} (body : S -> A -> outcome S) (l : list A) (s : S)
  : outcome S :=
  match l with
  | [] => Returns s
  | x :: l' => s' ← body s x; for_each body l' s'
  end.

(** [obj[i]] for an integer [i >= 0].  A dictionary of this model has
    string keys only, so an integer is never among them. *)
Definition getitem_int (obj : value) (i : nat) : outcome value :=
  match obj with
  | VList l =>
      match l !! i with
      | Some v => Returns v
      | None => Raises (Builtin IndexError)
      end
  | VStr s =>
      match String.get i s with
      | Some a => Returns (VStr (String a EmptyString))
      | None => Raises (Builtin IndexError)
      end
  | VDict _ => Raises KeyError
  | _ => Raises (Builtin TypeError)
  end.

(** ["x" in name] for a string [name]. *)
Definition has_x (name : string) : bool :=
  existsb (fun a => Ascii.eqb a "x") (list_ascii_of_string name).

(** [item == "x"]. *)
Definition is_str_x (item : value) : bool :=
  match item with
  | VStr s => String.eqb s "x"
  | _ => false
  end.

(** The body of the loop of [reverse_map] on the state
    [(result["status"], variables, objective_value)] and one item
    [(bit, solution[bit])].  The test ["x" in self.global_variables[bit]]
    is a substring test on a string, a membership test on a list or a
    dictionary and a [TypeError] on anything else; a list or a dictionary
    that passes it cannot be used as a key of [variables]. *)
Definition record_bit (global_variables : value)
    (state : value * gmap string Z * Z) (item : nat * Z)
  : outcome (value * gmap string Z * Z) :=
  let '(status, variables, objective_value) := state in
  let '(bit, v) := item in
  if (0 <? v)%Z then
    name ← getitem_int global_variables bit;
    match name with
    | VStr name =>
        if has_x name
        then Returns (VStr "Optimal", <[name := v]> variables, (objective_value + v)%Z)
        else Returns state
    | VList l =>
        if existsb is_str_x l then Raises (Builtin TypeError) else Returns state
    | VDict d =>
        if bool_decide (is_Some (d !! "x")) then Raises (Builtin TypeError)
        else Returns state
    | _ => Raises (Builtin TypeError)
    end
  else Returns state.

Section Reverse.
Variable Time : Type.
Variable start_time_measurement : unit -> Time.
Variable end_time_measurement : Time -> Time.

(** [solution] is a dictionary from bit positions to integers, given by its
    items in iteration order.  A dictionary never compares equal to the
    string ["-1"], so [np.any(solution == "-1")] is false and the
    conversion to a QUBO solution is not run. *)
Definition reverse_map (self : self_state) (solution : list (nat * Z))
  : outcome (dict * Time) :=
  let start := start_time_measurement tt in
  '(status, variables, objective_value) ←
    for_each (record_bit (global_variables self)) solution
      (VList [VInt 0], ∅, 0%Z);
  Returns (<["obj_value" := VInt objective_value]>
             (<["variables" := VDict (VInt <$> variables)]>
                (<["status" := status]> ∅)),
           end_time_measurement start).
End Reverse.

(** The solvers of [modules/solvers], which are not among the sources:
    a constructor stands for a fresh instance. *)
Inductive solver : Type :=
  | QAOA
  | QiskitQAOA.

Definition get_default_submodule (option : string) : outcome solver :=
  if String.eqb option "QAOA" then Returns QAOA
  else if String.eqb option "QiskitQAOA" then Returns QiskitQAOA
  else Raises (NotImplementedError
                 (String.append "Solver Option "
                    (String.append option " not implemented"))).
End Ising.

(** ** Vocabulary of the statements *)

(** The [r] digits of [k] in base [n], most significant first. *)
Fixpoint to_digits (n r k : nat) : list nat :=
  match r with
  | 0 => []
  | S r' => (k / n ^ r') mod n :: to_digits n r' k
  end.

Fixpoint lex_ltb (a b : list nat) : bool :=
  match a, b with
  | x :: a', y :: b' => (x <? y) || ((x =? y) && lex_ltb a' b')
  | _, _ => false
  end.

(** For each bin in increasing order, its centre [row[1:]] taken [value]
    times, every coordinate passed through [f]. *)
Definition repeat_centres {A B} (f : A -> B) (results : list nat) (rows : list (list A))
  : list (list B) :=
  concat (zip_with (fun value row => replicate value (List.map f (drop 1 row)))
            results rows).

(** The coefficient of the last term whose Z's stand exactly at
    [positions], zero when there is none. *)
Definition last_coefficient (terms : list (string * Ising.complex)) (positions : list nat)
  : Ising.complex :=
  default Ising.complex_zero
    (last (snd <$> filter (fun term => Ising.z_positions term.1 = positions) terms)).

(** The Z positions of a term with one or two Z's are valid indices of
    arrays of size [n]. *)
Definition term_in_range (n : nat) (term : string * Ising.complex) : Prop :=
  match Ising.z_positions term.1 with
  | [i] => i < n
  | [i; k] => i < n /\ k < n
  | _ => True
  end.

(** The assignments [reverse_map] keeps, in the order of the solution:
    the bits with a positive value whose variable name contains "x". *)
Definition assignments (names : list string) (solution : list (nat * Z))
  : list (string * Z) :=
  omap (fun item : nat * Z =>
          if (0 <? item.2)%Z then
            match names !! item.1 with
            | Some name => if Ising.has_x name then Some (name, item.2) else None
            | None => None
            end
          else None)
       solution.

(** A bit with a positive value names an existing variable. *)
Definition bit_in_range (n : nat) (item : nat * Z) : Prop :=
  (0 < item.2)%Z -> item.1 < n.

(* ===================================================================== *)
(** * Part II: properties                                                 *)
(* ===================================================================== *)

(** ** Exact binary64 arithmetic on small dyadic numbers

    The bin centres are dyadic rationals with at most 53 significant bits,
    so none of the operations that produce them rounds.  The lemmas below
    establish this from the definitions of the IEEE-754 specification. *)

Module F64Facts.
Import F64.
#[local] Open Scope Z_scope.

Lemma fexp_eq e : fexp prec emax e = Z.max (e - 53) (-1074).
Proof. reflexivity. Qed.

Lemma digits2_pos_size p : digits2_pos p = Pos.size p.
Proof. induction p; simpl; congruence. Qed.

Lemma digits_bounds p :
2 ^ (Z.pos (digits2_pos p) - 1) <= Z.pos p < 2 ^ Z.pos (digits2_pos p).
Proof.
rewrite digits2_pos_size. split.
- pose proof (Pos.size_le p) as H.
  apply Pos2Z.pos_le_pos in H. rewrite Pos2Z.inj_pow in H.
  replace (Z.pos (Pos.size p)) with (Z.succ (Z.pos (Pos.size p) - 1)) in H by lia.
  rewrite Z.pow_succ_r in H by lia. lia.
- pose proof (Pos.size_gt p) as H.
  apply Pos2Z.pos_lt_pos in H. now rewrite Pos2Z.inj_pow in H.
Qed.

Lemma digits_unique p d :
2 ^ (d - 1) <= Z.pos p < 2 ^ d -> Z.pos (digits2_pos p) = d.
Proof.
intros [Hl Hu]. pose proof (digits_bounds p) as [Hl' Hu'].
assert (0 < d) as Hd.
{ destruct (Z.lt_trichotomy d 0) as [H|[H|H]]; [|subst|done].
  - rewrite Z.pow_neg_r in Hu by lia. lia.
  - simpl in Hu. lia. }
destruct (Z.lt_trichotomy (Z.pos (digits2_pos p)) d) as [H|[H|H]]; [|done|].
- assert (2 ^ Z.pos (digits2_pos p) <= 2 ^ (d - 1)) by (apply Z.pow_le_mono_r; lia). lia.
- assert (2 ^ d <= 2 ^ (Z.pos (digits2_pos p) - 1)) by (apply Z.pow_le_mono_r; lia). lia.
Qed.

Lemma iter_xO m d : Z.pos (Pos.iter xO m d) = Z.pos m * 2 ^ Z.pos d.
Proof.
induction d as [|d IH] using Pos.peano_ind.
- simpl. lia.
- rewrite Pos.iter_succ, Pos2Z.inj_xO, IH, Pos2Z.inj_succ, Z.pow_succ_r by lia. lia.
Qed.

Lemma digits_shift (m : positive) (j : Z) (v : positive) :
0 <= j -> Z.pos v = Z.pos m * 2 ^ j ->
Z.pos (digits2_pos v) = Z.pos (digits2_pos m) + j.
Proof.
intros Hj Hv. apply digits_unique. rewrite Hv.
pose proof (digits_bounds m) as [Hl Hu].
replace (Z.pos (digits2_pos m) + j - 1) with ((Z.pos (digits2_pos m) - 1) + j) by lia.
rewrite !Z.pow_add_r by lia.
assert (0 < 2 ^ j) by (apply Z.pow_pos_nonneg; lia). nia.
Qed.

Lemma iter_pos_iter {A} (f : A -> A) p x : SpecFloat.iter_pos f p x = Pos.iter f x p.
Proof.
revert x. induction p as [p IH|p IH|]; intros x; simpl; [|by rewrite !IH|done].
by rewrite !IH, <- !Pos.iter_swap.
Qed.

Lemma shr_1_even (m : positive) :
shr_1 (Build_shr_record (Z.pos m~0) false false) = Build_shr_record (Z.pos m) false false.
Proof. reflexivity. Qed.

Lemma shr_exact (m : positive) (j : positive) (v : positive) :
Z.pos v = Z.pos m * 2 ^ Z.pos j ->
SpecFloat.iter_pos shr_1 j (Build_shr_record (Z.pos v) false false)
= Build_shr_record (Z.pos m) false false.
Proof.
rewrite iter_pos_iter. revert v.
induction j as [|j IH] using Pos.peano_ind; intros v Hv.
- simpl. destruct v; try lia. simpl. f_equal. lia.
- rewrite Pos.iter_succ_r. rewrite Pos2Z.inj_succ, Z.pow_succ_r in Hv by lia.
  destruct v as [v|v|]; try lia. rewrite shr_1_even. apply IH. lia.
Qed.

(** Rounding a mantissa that already carries 53 significant bits followed
  by [j] zero bits is exact. *)
Lemma binary_round_aux_exact s (m v : positive) (j e : Z) :
Z.pos (digits2_pos m) = 53 -> 0 <= j -> Z.pos v = Z.pos m * 2 ^ j ->
-1074 <= e + j <= 971 ->
binary_round_aux prec emax s (Z.pos v) e loc_Exact = S754_finite s m (e + j).
Proof.
intros Hm Hj Hv He.
assert (Hdv := digits_shift m j v Hj Hv).
unfold binary_round_aux, shr_fexp. simpl Zdigits2. simpl shr_record_of_loc.
rewrite fexp_eq, Hdv, Hm.
replace (Z.max (53 + j + e - 53) (-1074) - e) with j by lia.
destruct j as [|j|j]; [| |lia].
- simpl shr. simpl. rewrite fexp_eq.
  assert (v = m) as -> by lia. rewrite Hm.
  replace (Z.max (53 + e - 53) (-1074) - e) with 0 by lia. simpl.
  replace (e + 0) with e by lia.
  destruct (Z.leb_spec e (emax - prec)); [done|]. unfold emax, prec in *. lia.
- unfold shr. rewrite (shr_exact m j v Hv). simpl. rewrite fexp_eq, Hm.
  replace (Z.max (53 + (e + Z.pos j) - 53) (-1074) - (e + Z.pos j)) with 0 by lia.
  simpl.
  destruct (Z.leb_spec (e + Z.pos j) (emax - prec)); [done|]. unfold emax, prec in *. lia.
Qed.

(** [binary_round] returns the 53-bit normalised mantissa [m] of any value
  [v * 2^e] that equals [m * 2^(e+t)]: by a left shift when [t <= 0], by
  dropping [t] zero bits otherwise. *)
Lemma binary_round_exact s (v m : positive) (e t : Z) :
Z.pos (digits2_pos m) = 53 ->
(0 <= t /\ Z.pos v = Z.pos m * 2 ^ t) \/ (t <= 0 /\ Z.pos m = Z.pos v * 2 ^ (- t)) ->
-1074 <= e + t <= 971 ->
binary_round prec emax s v e = S754_finite s m (e + t).
Proof.
intros Hm Hv He. unfold binary_round.
assert (Z.pos (digits2_pos v) = 53 + t) as Hdv.
{ destruct Hv as [[Ht Hv]|[Ht Hv]].
  - rewrite (digits_shift m t v Ht Hv). lia.
  - pose proof (digits_shift v (- t) m ltac:(lia) Hv). lia. }
rewrite fexp_eq, Hdv.
replace (Z.max (53 + t + e - 53) (-1074)) with (e + t) by lia.
unfold shl_align. replace (e + t - e) with t by lia.
destruct t as [|t|t].
- apply binary_round_aux_exact; [done|lia| |lia]. destruct Hv as [[_ ->]|[_ ->]]; simpl; lia.
- apply binary_round_aux_exact; [done|lia| |lia]. destruct Hv as [[_ ->]|[? _]]; lia.
- replace (S754_finite s m (e + Z.neg t)) with (S754_finite s m (e + Z.neg t + 0))
    by (f_equal; lia).
  apply binary_round_aux_exact; [done|lia| |lia].
  rewrite iter_xO. destruct Hv as [[? _]|[_ ->]]; [lia|].
  rewrite Z.pow_0_r, Z.mul_1_r. reflexivity.
Qed.

Lemma digits_pow2_52 : Z.pos (digits2_pos 4503599627370496) = 53.
Proof. reflexivity. Qed.

Lemma of_int_pow2 (k : Z) : 0 <= k <= 1023 -> of_int (2 ^ k) = pow2 k.
Proof.
intros Hk. unfold of_int, binary_normalize, pow2.
assert (0 < 2 ^ k) as Hpos by (apply Z.pow_pos_nonneg; lia).
destruct (2 ^ k) as [|v|v] eqn:Hv; try lia.
replace (k - 52) with (0 + (k - 52)) by lia.
apply binary_round_exact; [done| |lia].
destruct (Z.le_gt_cases 52 k).
- left. split; [lia|]. rewrite <- Hv. change (Z.pos 4503599627370496) with (2 ^ 52).
  rewrite <- Z.pow_add_r by lia. f_equal. lia.
- right. split; [lia|]. rewrite <- Hv. change (Z.pos 4503599627370496) with (2 ^ 52).
  rewrite <- Z.pow_add_r by lia. f_equal. lia.
Qed.

(** Every positive integer below [2^53] converts without rounding. *)
Lemma of_int_exact (c : positive) :
Z.pos c < 2 ^ 53 ->
exists m, Z.pos (digits2_pos m) = 53 /\
  Z.pos m = Z.pos c * 2 ^ (53 - Z.pos (digits2_pos c)) /\
  of_int (Z.pos c) = S754_finite false m (Z.pos (digits2_pos c) - 53).
Proof.
intros Hc. set (d := Z.pos (digits2_pos c)).
assert (d <= 53) as Hd.
{ pose proof (digits_bounds c) as [Hl _]. fold d in Hl.
  destruct (Z.le_gt_cases d 53); [done|].
  assert (2 ^ 53 <= 2 ^ (d - 1)) by (apply Z.pow_le_mono_r; lia). lia. }
assert (0 < Z.pos c * 2 ^ (53 - d)) as Hpos.
{ apply Z.mul_pos_pos; [lia|]. apply Z.pow_pos_nonneg; lia. }
destruct (Z.pos c * 2 ^ (53 - d)) as [|m|m] eqn:Hm; try lia.
exists m. assert (Z.pos (digits2_pos m) = 53) as Hdm.
{ rewrite (digits_shift c (53 - d) m) by lia. fold d. lia. }
split; [done|]. split; [done|].
unfold of_int, binary_normalize.
replace (d - 53) with (0 + (d - 53)) by lia.
apply binary_round_exact; [done| |lia].
right. split; [lia|]. rewrite <- Hm. f_equal. f_equal. lia.
Qed.

(** Dividing a normal number by a power of two only moves the exponent. *)
Lemma div_pow2 s (m : positive) (e k : Z) :
Z.pos (digits2_pos m) = 53 -> -1074 < e - k <= 971 ->
div (S754_finite s m e) (pow2 k) = S754_finite s m (e - k).
Proof.
intros Hm He. unfold div, pow2, SFdiv, SFdiv_core_binary.
cbn [Zdigits2]. rewrite Hm, digits_pow2_52, fexp_eq.
replace (Z.min (Z.max (53 + e - (53 + (k - 52)) - 53) (-1074)) (e - (k - 52)))
  with (e - k - 1) by lia.
replace (e - (k - 52) - (e - k - 1)) with 53 by lia.
rewrite Z.shiftl_mul_pow2 by lia.
replace (Z.pos m * 2 ^ 53) with ((2 * Z.pos m) * 4503599627370496) by lia.
assert (Z.div_eucl (2 * Z.pos m * 4503599627370496) 4503599627370496
        = (2 * Z.pos m, 0)) as ->.
{ pose proof (Z_div_mod (2 * Z.pos m * 4503599627370496) 4503599627370496 ltac:(lia)) as H.
  destruct (Z.div_eucl _ _) as [q r]. destruct H as [H1 H2]. f_equal; lia. }
rewrite xorb_false_r.
replace (new_location 4503599627370496 0) with loc_Exact by reflexivity.
replace (e - k) with (e - k - 1 + 1) at 2 by lia.
change (2 * Z.pos m) with (Z.pos m~0).
apply binary_round_aux_exact; [done|lia|lia|lia].
Qed.

Lemma div_zero_pow2 k : div zero (pow2 k) = zero.
Proof. reflexivity. Qed.

Lemma shl_align_fst (m : positive) (e e' : Z) :
e' <= e -> Z.pos (fst (shl_align m e e')) = Z.pos m * 2 ^ (e - e').
Proof.
intros He. unfold shl_align. destruct (e' - e) as [|d|d] eqn:Hd; try lia.
- simpl. replace (e - e') with 0 by lia. lia.
- simpl. rewrite iter_xO. f_equal. f_equal. lia.
Qed.

(** Sum of two positive finite numbers, before the final rounding. *)
Lemma add_finite_pos (m1 m2 : positive) (e1 e2 : Z) (v : positive) :
Z.pos v = Z.pos m1 * 2 ^ (e1 - Z.min e1 e2) + Z.pos m2 * 2 ^ (e2 - Z.min e1 e2) ->
add (S754_finite false m1 e1) (S754_finite false m2 e2)
= binary_round prec emax false v (Z.min e1 e2).
Proof.
intros Hv. unfold add, SFadd, cond_Zopp.
rewrite !shl_align_fst by lia. rewrite <- Hv. reflexivity.
Qed.

Lemma Zpos_ex (z : Z) : 0 < z -> exists p, z = Z.pos p.
Proof. destruct z as [|p|p]; try lia. by exists p. Qed.

(** Both orders of evaluation of a bin centre, [c/n + 0.5/n] and
  [(c + 0.5)/n] with [n = 2^k], produce the same binary64 number, and it
  is the exact dyadic [(2c+1) / 2^(k+1)]. *)
Lemma coord_form (c k : Z) :
0 <= c < 2 ^ k -> 0 <= k <= 52 ->
exists (m : positive) (t : Z),
  Z.pos (digits2_pos m) = 53 /\ 0 <= t <= 52 /\
  Z.pos m = (2 * c + 1) * 2 ^ t /\
  add (div (of_int c) (pow2 k)) (div half (pow2 k))
    = S754_finite false m (- (k + 1) - t) /\
  div (add (of_int c) half) (pow2 k) = S754_finite false m (- (k + 1) - t).
Proof.
intros Hc Hk.
assert (div half (pow2 k) = S754_finite false 4503599627370496 (-53 - k)) as Hh.
{ unfold half. apply div_pow2; [done|lia]. }
destruct c as [|p|p]; [| |lia].
- exists 4503599627370496%positive, 52. split; [done|]. split; [lia|]. split; [done|].
  change (of_int 0) with zero. rewrite div_zero_pow2.
  change (add zero half) with half. rewrite Hh.
  split; [|f_equal; lia].
  change (add zero (S754_finite false 4503599627370496 (-53 - k)))
    with (S754_finite false 4503599627370496 (-53 - k)). f_equal; lia.
- set (d := Z.pos (digits2_pos p)).
  assert (1 <= d <= 52) as Hd.
  { pose proof (digits_bounds p) as [Hl _]. fold d in Hl. split; [lia|].
    destruct (Z.le_gt_cases d 52); [done|].
    assert (2 ^ 52 <= 2 ^ (d - 1)) by (apply Z.pow_le_mono_r; lia).
    assert (2 ^ k <= 2 ^ 52) by (apply Z.pow_le_mono_r; lia). lia. }
  assert (Z.pos p < 2 ^ 53) as Hp53.
  { assert (2 ^ k <= 2 ^ 52) by (apply Z.pow_le_mono_r; lia).
    assert (2 ^ 52 < 2 ^ 53) by (apply Z.pow_lt_mono_r; lia). lia. }
  destruct (of_int_exact p Hp53) as (mc & Hdmc & Hmc & Hof). fold d in Hmc, Hof.
  assert (0 < 2 ^ (52 - d)) as Hpw by (apply Z.pow_pos_nonneg; lia).
  destruct (Zpos_ex ((2 * Z.pos p + 1) * 2 ^ (52 - d)) ltac:(nia)) as [m Hm].
  destruct (Zpos_ex ((2 * Z.pos p + 1) * 2 ^ 52) ltac:(lia)) as [v Hv].
  assert (Z.pos (digits2_pos m) = 53) as Hdm.
  { rewrite (digits_shift p~1 (52 - d) m) by (try rewrite <- Hm; lia).
    cbn [digits2_pos]. rewrite Pos2Z.inj_succ. fold d. lia. }
  assert (Z.pos v = Z.pos m * 2 ^ d) as Hvm.
  { rewrite <- Hv, <- Hm, <- Z.mul_assoc, <- Z.pow_add_r by lia.
    f_equal. f_equal. lia. }
  assert (Z.pos mc * 2 ^ d = Z.pos p * 2 ^ 53) as Hmc'.
  { rewrite Hmc, <- Z.mul_assoc, <- Z.pow_add_r by lia. f_equal. f_equal. lia. }
  exists m, (52 - d). split; [done|]. split; [lia|]. split; [by rewrite <- Hm|].
  rewrite Hof, Hh. split.
  + rewrite div_pow2 by (done || lia).
    rewrite (add_finite_pos _ _ _ _ v).
    * replace (Z.min (d - 53 - k) (-53 - k)) with (-53 - k) by lia.
      replace (- (k + 1) - (52 - d)) with (-53 - k + d) by lia.
      apply binary_round_exact; [done| |lia]. left. split; [lia|done].
    * replace (Z.min (d - 53 - k) (-53 - k)) with (-53 - k) by lia.
      replace (d - 53 - k - (-53 - k)) with d by lia.
      replace (-53 - k - (-53 - k)) with 0 by lia.
      rewrite Hmc', <- Hv. lia.
  + unfold half. rewrite (add_finite_pos _ _ _ _ v).
    * replace (Z.min (d - 53) (-53)) with (-53) by lia.
      rewrite (binary_round_exact false v m (-53) d); [|done|left; split; [lia|done]|lia].
      rewrite div_pow2 by (done || lia). f_equal. lia.
    * replace (Z.min (d - 53) (-53)) with (-53) by lia.
      replace (d - 53 - -53) with d by lia.
      replace (-53 - -53) with 0 by lia.
      rewrite Hmc', <- Hv. lia.
Qed.
End F64Facts.

(** ** The rational value of the numbers produced *)

Module F64Values.
Import F64 F64Facts.
#[local] Open Scope Z_scope.

Lemma to_Q_scaled (m : positive) (v t e : Z) :
0 <= t -> Z.pos m = v * 2 ^ t ->
Qeq (to_Q (S754_finite false m e)) (inject_Z v * Qpower (2 # 1) (t + e)).
Proof.
intros Ht Hm. unfold to_Q, cond_Zopp. rewrite Hm, inject_Z_mult.
rewrite Zpower_Qpower by done.
rewrite Qpower_plus by done.
change (inject_Z 2) with (2 # 1). ring.
Qed.

Lemma of_int_value (k : Z) :
0 <= k < 2 ^ 53 -> Qeq (to_Q (of_int k)) (inject_Z k).
Proof.
intros Hk. destruct k as [|p|p]; [done| |lia].
destruct (of_int_exact p) as (m & Hdm & Hm & ->); [lia|].
pose proof (digits_bounds p) as [Hl _].
assert (Z.pos (digits2_pos p) <= 53) as Hd.
{ destruct (Z.le_gt_cases (Z.pos (digits2_pos p)) 53); [done|].
  assert (2 ^ 53 <= 2 ^ (Z.pos (digits2_pos p) - 1)) by (apply Z.pow_le_mono_r; lia).
  lia. }
rewrite (to_Q_scaled m (Z.pos p) (53 - Z.pos (digits2_pos p))) by (lia || done).
replace (53 - Z.pos (digits2_pos p) + (Z.pos (digits2_pos p) - 53)) with 0 by lia.
simpl. ring.
Qed.

Lemma Qpower_2_neg_succ (k : Z) :
0 <= k -> Qeq (Qpower (2 # 1) (- (k + 1))) (/ ((2 # 1) * inject_Z (2 ^ k))).
Proof.
intros Hk. rewrite Qpower_opp, Qpower_plus by done.
rewrite Zpower_Qpower by done. change (inject_Z 2) with (2 # 1).
change (Qpower (2 # 1) 1) with (2 # 1). apply Qinv_comp. ring.
Qed.

Lemma inject_pow2_nonzero (k : Z) : 0 <= k -> ~ Qeq (inject_Z (2 ^ k)) 0.
Proof.
intros Hk H. assert (0 < 2 ^ k) by (apply Z.pow_pos_nonneg; lia).
unfold Qeq in H. simpl in H. lia.
Qed.

(** The value of a bin centre is [(c + 1/2) / 2^k], without rounding. *)
Lemma coord_value (c k : Z) :
0 <= c < 2 ^ k -> 0 <= k <= 52 ->
Qeq (to_Q (add (div (of_int c) (pow2 k)) (div half (pow2 k))))
    ((inject_Z c + (1 # 2)) / inject_Z (2 ^ k)).
Proof.
intros Hc Hk. destruct (coord_form c k Hc Hk) as (m & t & _ & Ht & Hm & -> & _).
rewrite (to_Q_scaled m (2 * c + 1) t) by (lia || done).
replace (t + (- (k + 1) - t)) with (- (k + 1)) by lia.
rewrite Qpower_2_neg_succ by lia.
rewrite inject_Z_plus, inject_Z_mult.
pose proof (inject_pow2_nonzero k ltac:(lia)).
change (inject_Z 2) with (2 # 1). change (inject_Z 1) with (1 # 1).
field. done.
Qed.

Lemma coord_range (c k : Z) :
0 <= c < 2 ^ k -> 0 <= k ->
(0 < (inject_Z c + (1 # 2)) / inject_Z (2 ^ k) < 1)%Q.
Proof.
intros Hc Hk. assert (0 < 2 ^ k) as Hp by lia.
assert (Qeq ((inject_Z c + (1 # 2)) / inject_Z (2 ^ k))
            (Qmake (2 * c + 1) (Z.to_pos (2 * 2 ^ k)))) as ->.
{ unfold Qeq, Qdiv, Qmult, Qplus, Qinv, inject_Z. simpl.
  destruct (2 ^ k) as [|p|p] eqn:Hpk; try lia. simpl. lia. }
unfold Qlt. simpl. rewrite Z2Pos.id by lia. lia.
Qed.
End F64Values.

(** ** itertools.product *)

Module ItertoolsFacts.
Import Itertools.

Lemma to_digits_length n r k : length (to_digits n r k) = r.
Proof. induction r; simpl; congruence. Qed.

Lemma to_digits_bound n r k : 0 < n -> Forall (fun c => c < n) (to_digits n r k).
Proof.
intros Hn. induction r; simpl; constructor; [|done].
apply Nat.mod_upper_bound. lia.
Qed.

Lemma to_digits_mod n r k : n <> 0 -> to_digits n r (k mod n ^ r) = to_digits n r k.
Proof.
intros Hn. revert k. induction r as [|r IH]; intros k; [done|].
cbn [to_digits]. f_equal.
- assert (n ^ r <> 0) by (apply Nat.pow_nonzero; done).
  rewrite Nat.pow_succ_r', (Nat.mul_comm n), Nat.Div0.mod_mul_r.
  rewrite (Nat.mul_comm (n ^ r)), Nat.div_add by done.
  rewrite Nat.div_small by (apply Nat.mod_upper_bound; done).
  simpl. by rewrite Nat.Div0.mod_mod.
- rewrite <- (IH (k mod n ^ S r)), <- (IH k). f_equal.
  rewrite Nat.pow_succ_r', (Nat.mul_comm n), Nat.Div0.mod_mul_r.
  rewrite (Nat.mul_comm (n ^ r)), Nat.Div0.mod_add. by rewrite Nat.Div0.mod_mod.
Qed.

Lemma to_digits_lex n r k1 k2 :
k1 < k2 -> k2 < n ^ r -> lex_ltb (to_digits n r k1) (to_digits n r k2) = true.
Proof.
revert k1 k2. induction r as [|r IH]; intros k1 k2 Hlt Hk2.
{ simpl in Hk2. lia. }
assert (n <> 0) as Hn by (intros ->; simpl in Hk2; lia).
assert (n ^ r <> 0) as Hp by (apply Nat.pow_nonzero; done).
cbn [to_digits lex_ltb].
assert (k2 / n ^ r < n) as Hq2.
{ apply Nat.Div0.div_lt_upper_bound. rewrite Nat.pow_succ_r' in Hk2. lia. }
assert (k1 / n ^ r <= k2 / n ^ r) as Hq by (apply Nat.Div0.div_le_mono; lia).
rewrite !Nat.mod_small by lia.
destruct (decide (k1 / n ^ r = k2 / n ^ r)) as [Heq|Hne].
- rewrite Heq, Nat.eqb_refl, andb_true_l. apply orb_true_iff. right.
  rewrite <- (to_digits_mod n r k1), <- (to_digits_mod n r k2) by done.
  apply IH; [|apply Nat.mod_upper_bound; done].
  pose proof (Nat.div_mod_eq k1 (n ^ r)). pose proof (Nat.div_mod_eq k2 (n ^ r)).
  rewrite Heq in *. lia.
- apply orb_true_iff. left. apply Nat.ltb_lt. lia.
Qed.

Lemma product_step_length {A} (res : list (list A)) pool :
length (product_step res pool) = length res * length pool.
Proof.
unfold product_step. induction res as [|x res IH]; [done|].
cbn [flat_map]. rewrite length_app, IH, length_map. simpl. lia.
Qed.

Lemma product_step_lookup {A} (res : list (list A)) pool q a y :
res !! (q / length pool) = Some a ->
pool !! (q mod length pool) = Some y ->
product_step res pool !! q = Some (a ++ [y]).
Proof.
unfold product_step. intros Ha Hy.
assert (length pool <> 0) as Hn.
{ apply lookup_lt_Some in Hy. lia. }
revert q Ha Hy. induction res as [|x res IH]; intros q Ha Hy; [done|].
cbn [flat_map]. destruct (decide (q < length pool)) as [Hq|Hq].
- rewrite Nat.div_small in Ha by done. rewrite Nat.mod_small in Hy by done.
  simpl in Ha. injection Ha as ->.
  rewrite lookup_app_l by (by rewrite length_map).
  change (List.map ?f pool) with (f <$> pool).
  by rewrite list_lookup_fmap, Hy.
- rewrite lookup_app_r by (rewrite length_map; lia). rewrite length_map.
  assert (q = (q - length pool) + 1 * length pool) as Hq' by lia.
  rewrite Hq', Nat.div_add in Ha by done.
  rewrite Hq', Nat.Div0.mod_add in Hy.
  apply IH; [|done]. replace ((q - length pool) / length pool + 1)
    with (S ((q - length pool) / length pool)) in Ha by lia. done.
Qed.

Lemma product_fold_length {A} (pool : list A) r acc :
length (fold_left product_step (replicate r pool) acc)
= length acc * length pool ^ r.
Proof.
revert acc. induction r as [|r IH]; intros acc; simpl; [lia|].
rewrite IH, product_step_length. lia.
Qed.

Lemma product_fold_lookup n r acc k a :
n <> 0 ->
acc !! (k / n ^ r) = Some a ->
fold_left product_step (replicate r (range n)) acc !! k
= Some (a ++ to_digits n r k).
Proof.
intros Hn. revert acc k a. induction r as [|r IH]; intros acc k a Ha.
- rewrite Nat.pow_0_r, Nat.div_1_r in Ha. simpl. by rewrite app_nil_r.
- cbn [replicate fold_left to_digits].
  rewrite (IH _ k (a ++ [(k / n ^ r) mod n])).
  + by rewrite <- app_assoc.
  + assert (length (range n) = n) as Hlen by apply length_seq.
    apply product_step_lookup; rewrite Hlen.
    * rewrite Nat.Div0.div_div, (Nat.mul_comm (n ^ r)), <- Nat.pow_succ_r'. done.
    * unfold range. apply lookup_seq. split; [done|]. apply Nat.mod_upper_bound. done.
Qed.

Lemma product_length n r : length (product (range n) r) = n ^ r.
Proof.
unfold product, product_pools. rewrite product_fold_length.
unfold range. rewrite length_seq. simpl. lia.
Qed.

(** The [k]-th tuple of [product(range(n), repeat=r)] spells [k] in base
  [n]: the enumeration is the lexicographic one. *)
Lemma product_lookup n r k :
n <> 0 -> k < n ^ r -> product (range n) r !! k = Some (to_digits n r k).
Proof.
intros Hn Hk. unfold product, product_pools.
rewrite (product_fold_lookup n r [[]] k []); [done|done|].
by rewrite Nat.div_small.
Qed.

Lemma product_elem n r coords :
n <> 0 -> coords ∈ product (range n) r ->
length coords = r /\ Forall (fun c => c < n) coords.
Proof.
intros Hn Hin. apply list_elem_of_lookup in Hin as [k Hk].
assert (k < n ^ r) as Hlt.
{ apply lookup_lt_Some in Hk. by rewrite product_length in Hk. }
rewrite product_lookup in Hk by done. injection Hk as <-.
split; [apply to_digits_length|apply to_digits_bound; lia].
Qed.
End ItertoolsFacts.

(** ** compute_discretization and compute_discretization_efficient *)

Module DiscretizationFacts.
Import Itertools ItertoolsFacts Transformation.

Lemma of_int_nat_pow2 (q : nat) :
q <= 52 -> F64.of_int (Z.of_nat (2 ^ q)) = F64.pow2 (Z.of_nat q).
Proof.
intros Hq. rewrite Nat2Z.inj_pow. apply F64Facts.of_int_pow2. lia.
Qed.

Lemma nat_lt_pow2 (c q : nat) : c < 2 ^ q -> (0 <= Z.of_nat c < 2 ^ Z.of_nat q)%Z.
Proof.
intros Hc. split; [lia|]. apply Nat2Z.inj_lt in Hc.
by rewrite Nat2Z.inj_pow in Hc.
Qed.

(** The two ways of evaluating a bin centre agree bit for bit. *)
Lemma normalized_coord_agree (q c : nat) :
q <= 52 -> c < 2 ^ q ->
normalized_coord (2 ^ q) c = normalized_coord_efficient (2 ^ q) c.
Proof.
intros Hq Hc. unfold normalized_coord, normalized_coord_efficient.
rewrite of_int_nat_pow2 by done.
destruct (F64Facts.coord_form (Z.of_nat c) (Z.of_nat q)) as (m & t & _ & _ & _ & -> & ->);
  [by apply nat_lt_pow2|lia|done].
Qed.

Lemma setitem_row_fits {A} (a : Np.ndarray2 A) k row :
k < Np.nrows a -> length row = Np.ncols a ->
Np.setitem_row a k row = Ok (Np.Array2 (Np.ncols a) (<[k := row]> (Np.rows a))).
Proof. intros Hk Hrow. unfold Np.setitem_row. by rewrite !decide_True. Qed.

(** Writing one row per item into consecutive rows fills the array with
  exactly those rows. *)
Lemma for_loop_setitem_row {A B} (g : nat -> B -> list A) (c : nat) (l : list B) :
forall (i : nat) (pre rest : list (list A)),
  length pre = i -> length rest = length l ->
  (forall j x, l !! j = Some x -> length (g (i + j) x) = c) ->
  for_loop (fun a '(k, x) => Np.setitem_row a k (g k x))
    (enumerate_from i l) (Np.Array2 c (pre ++ rest))
  = Ok (Np.Array2 c (pre ++ List.map (fun '(k, x) => g k x) (enumerate_from i l))).
Proof.
induction l as [|x l IH]; intros i pre rest Hpre Hrest Hg.
- destruct rest; [done|simpl in Hrest; lia].
- destruct rest as [|r0 rest]; [simpl in Hrest; lia|].
  cbn [enumerate_from for_loop List.map].
  pose proof (Hg 0 x eq_refl) as H0. rewrite Nat.add_0_r in H0.
  rewrite setitem_row_fits; unfold Np.nrows; cbn [Np.rows Np.ncols];
    [|rewrite length_app; simpl; lia|done].
  cbn [mbind result_bind].
  replace (<[i:=g i x]> (pre ++ r0 :: rest)) with ((pre ++ [g i x]) ++ rest).
  2:{ rewrite <- Hpre, insert_app_r_alt, Nat.sub_diag, <- app_assoc by done. done. }
  rewrite (IH (S i) (pre ++ [g i x]) rest).
  + by rewrite <- app_assoc.
  + rewrite length_app. simpl. lia.
  + simpl in Hrest. lia.
  + intros j y Hy. replace (S i + j) with (i + S j) by lia. by apply Hg.
Qed.

Lemma enumerate_from_length {A} i (l : list A) : length (enumerate_from i l) = length l.
Proof. revert i. induction l; intros i; simpl; [done|]. by rewrite IHl. Qed.

Lemma enumerate_from_lookup {A} i (l : list A) j x :
l !! j = Some x -> enumerate_from i l !! j = Some (i + j, x).
Proof.
revert i j. induction l as [|y l IH]; intros i j H; [done|].
destruct j as [|j]; simpl in *.
- injection H as ->. by rewrite Nat.add_0_r.
- rewrite (IH (S i) j H). f_equal. f_equal. lia.
Qed.

Lemma compute_discretization_closed uninit n_qubits n_registered :
n_registered <> 0 ->
let n := 2 ^ (n_qubits / n_registered) in
compute_discretization uninit n_qubits n_registered
= Ok (Np.Array2 (n_registered + 1)
        (List.map (fun '(k, coords) =>
            F64.of_int (Z.of_nat k) :: List.map (normalized_coord n) coords)
         (enumerate (product (range n) n_registered)))).
Proof.
intros Hr n. unfold compute_discretization, floordiv.
rewrite decide_False by done. cbn [mbind result_bind]. fold n.
assert (n <> 0) as Hn by (apply Nat.pow_nonzero; done).
unfold Np.empty, enumerate.
set (rest := List.map _ (seq 0 (n ^ n_registered))).
pose proof (for_loop_setitem_row
  (fun k coords => F64.of_int (Z.of_nat k) :: List.map (normalized_coord n) coords)
  (n_registered + 1) (product (range n) n_registered) 0 [] rest) as H.
simpl in H. apply H; [done| |].
- unfold rest. by rewrite length_map, length_seq, product_length.
- intros j x Hx. rewrite length_map.
  destruct (product_elem n n_registered x Hn) as [-> _]; [|lia].
  by eapply list_elem_of_lookup_2.
Qed.

Lemma hstack_index_column {A} (f : nat -> A) (g : nat -> list A) :
forall (i : nat) (l : list (list nat)) (h : list nat -> list A),
  zip_with app (List.map (fun k => [f k]) (seq i (length l))) (List.map h l)
  = List.map (fun '(k, x) => f k :: h x) (enumerate_from i l).
Proof.
intros i l h. revert i. induction l as [|x l IH]; intros i; [done|].
simpl. by rewrite IH.
Qed.

Lemma compute_discretization_efficient_closed n_qubits n_registers :
n_registers <> 0 ->
let n := 2 ^ (n_qubits / n_registers) in
compute_discretization_efficient n_qubits n_registers
= Ok (Np.Array2 (1 + n_registers)
        (List.map (fun '(k, coords) =>
            F64.of_int (Z.of_nat k) :: List.map (normalized_coord_efficient n) coords)
         (enumerate (product (range n) n_registers)))).
Proof.
intros Hr n. unfold compute_discretization_efficient, floordiv.
rewrite decide_False by done. cbn [mbind result_bind]. fold n.
unfold Np.hstack, Np.map2, Np.arange_column, Np.nrows. cbn [Np.rows Np.ncols].
rewrite decide_True by (rewrite !length_map, length_seq, product_length; done).
f_equal. f_equal. rewrite List.map_map. cbn [List.map].
rewrite <- (product_length n n_registers).
apply (hstack_index_column (fun k => F64.of_int (Z.of_nat k)) (fun _ => [])).
Qed.
End DiscretizationFacts.

Module DiscretizationAux.
Import Itertools ItertoolsFacts Transformation DiscretizationFacts.

Lemma enumerate_from_elem {A} i (l : list A) k x :
(k, x) ∈ enumerate_from i l -> x ∈ l.
Proof.
revert i. induction l as [|y l IH]; intros i H; simpl in H.
- by apply elem_of_nil in H.
- apply elem_of_cons in H as [H|H].
  + injection H as _ ->. apply list_elem_of_here.
  + apply list_elem_of_further. by eapply IH.
Qed.
End DiscretizationAux.

Import Itertools ItertoolsFacts Transformation DiscretizationFacts DiscretizationAux.

(** C1.  For [n_qubits >= 1] and [n_registers >= 1], with at most 52
    qubits per register (so that every bin centre is a binary64 number),
    [compute_discretization] and [compute_discretization_efficient] return
    the same array: same shape, the same entry at every position.  The
    content of the uninitialised buffer does not matter. *)
Theorem C1_discretization_variants_agree
    (uninit : nat -> nat -> spec_float) (n_qubits n_registers : nat) :
  1 <= n_qubits -> 1 <= n_registers -> n_qubits / n_registers <= 52 ->
  exists bin_data,
    compute_discretization uninit n_qubits n_registers = Ok bin_data /\
    compute_discretization_efficient n_qubits n_registers = Ok bin_data.
Proof.
  intros _ Hr Hq.
  rewrite compute_discretization_closed, compute_discretization_efficient_closed by lia.
  eexists. split; [reflexivity|].
  rewrite (Nat.add_comm 1). f_equal. f_equal.
  apply map_ext_in. intros [k coords] Hin.
  apply list_elem_of_In, enumerate_from_elem in Hin.
  apply product_elem in Hin as [_ Hlt]; [|by apply Nat.pow_nonzero].
  f_equal. apply map_ext_in. intros c Hc.
  symmetry. apply normalized_coord_agree; [done|].
  rewrite Forall_forall in Hlt. apply Hlt. by apply list_elem_of_In.
Qed.

Lemma C1_witness :
  exists bin_data,
    compute_discretization (fun _ _ => S754_nan) 4 2 = Ok bin_data /\
    compute_discretization_efficient 4 2 = Ok bin_data.
Proof.
  apply (C1_discretization_variants_agree (fun _ _ => S754_nan) 4 2); simpl; lia.
Defined.

(** C3.  For [n_qubits >= 1] and [n_registered >= 1], with
    [n = 2^(n_qubits // n_registered)], [compute_discretization] returns an
    array of shape [(n^n_registered, n_registered + 1)].  Row [k] starts
    with [k] and continues with [(c_i + 1/2) / n] for the [k]-th tuple of
    [product(range(n), repeat=n_registered)]; that tuple is [k] written in
    base [n], so tuples come in lexicographic order; every coordinate lies
    strictly between 0 and 1.  The grid has [n^n_registered =
    2^((n_qubits // n_registered) * n_registered)] rows; the statement
    covers every grid of at most [2^52] rows, whatever [n_qubits] is: there
    every row number and every bin centre is a binary64 number. *)
Theorem C3_discretization_grid
    (uninit : nat -> nat -> spec_float) (n_qubits n_registered : nat) :
  1 <= n_qubits -> 1 <= n_registered ->
  (n_qubits / n_registered) * n_registered <= 52 ->
  let n := 2 ^ (n_qubits / n_registered) in
  exists bin_data,
    compute_discretization uninit n_qubits n_registered = Ok bin_data /\
    Np.nrows bin_data = n ^ n_registered /\
    Np.ncols bin_data = n_registered + 1 /\
    Np.wf bin_data /\
    (forall k, k < n ^ n_registered ->
       exists coords entries,
         product (range n) n_registered !! k = Some coords /\
         coords = to_digits n n_registered k /\
         Np.rows bin_data !! k = Some (F64.of_int (Z.of_nat k) :: entries) /\
         Qeq (F64.to_Q (F64.of_int (Z.of_nat k))) (inject_Z (Z.of_nat k)) /\
         length entries = n_registered /\
         forall i c, coords !! i = Some c ->
           exists x, entries !! i = Some x /\
             Qeq (F64.to_Q x)
                 ((inject_Z (Z.of_nat c) + (1 # 2)) / inject_Z (Z.of_nat n)) /\
             (0 < F64.to_Q x < 1)%Q) /\
    (forall k1 k2 t1 t2,
       k1 < k2 ->
       product (range n) n_registered !! k1 = Some t1 ->
       product (range n) n_registered !! k2 = Some t2 ->
       lex_ltb t1 t2 = true).
Proof.
  intros _ Hr Hq n.
  assert (n <> 0) as Hn by (by apply Nat.pow_nonzero).
  assert (n_qubits / n_registered <= 52) as Hq' by nia.
  rewrite compute_discretization_closed by lia. fold n.
  eexists. split; [reflexivity|].
  unfold Np.nrows, Np.wf. cbn [Np.rows Np.ncols].
  split; [unfold enumerate; by rewrite length_map, enumerate_from_length, product_length|].
  split; [done|]. split.
  { apply Forall_forall. intros row Hrow.
    apply list_elem_of_In, in_map_iff in Hrow as ([k coords] & <- & Hin).
    apply list_elem_of_In, enumerate_from_elem, product_elem in Hin as [Hlen _]; [|done].
    simpl. rewrite length_map. lia. }
  split.
  - intros k Hk.
    pose proof (product_lookup n n_registered k Hn Hk) as Hlook.
    exists (to_digits n n_registered k),
           (List.map (normalized_coord n) (to_digits n n_registered k)).
    split; [done|]. split; [done|]. split.
    { change (List.map ?f ?l) with (f <$> l) at 1.
      rewrite list_lookup_fmap. unfold enumerate.
      by rewrite (enumerate_from_lookup 0 _ k _ Hlook). }
    split.
    { apply F64Values.of_int_value. split; [lia|].
      assert (n ^ n_registered <= 2 ^ 52) as Hle.
      { unfold n. rewrite <- Nat.pow_mul_r. by apply Nat.pow_le_mono_r. }
      assert (Z.of_nat k < Z.of_nat (2 ^ 52))%Z as Hlt by lia.
      rewrite Nat2Z.inj_pow in Hlt. simpl in Hlt. lia. }
    split; [by rewrite length_map, to_digits_length|].
    intros i c Hc. exists (normalized_coord n c). split.
    { change (List.map ?f ?l) with (f <$> l). by rewrite list_lookup_fmap, Hc. }
    assert (c < n) as Hcn.
    { pose proof (to_digits_bound n n_registered k ltac:(lia)) as Hb.
      rewrite Forall_forall in Hb. apply Hb. by eapply list_elem_of_lookup_2. }
    pose proof (nat_lt_pow2 c _ Hcn) as Hcz.
    assert (Qeq (F64.to_Q (normalized_coord n c))
              ((inject_Z (Z.of_nat c) + (1 # 2)) / inject_Z (Z.of_nat n))) as Hval.
    { unfold normalized_coord, n. rewrite of_int_nat_pow2 by done.
      rewrite Nat2Z.inj_pow. apply F64Values.coord_value; [done|lia]. }
    split; [done|]. rewrite Hval. unfold n. rewrite Nat2Z.inj_pow.
    apply F64Values.coord_range; [done|lia].
  - intros k1 k2 t1 t2 Hlt H1 H2.
    assert (k2 < n ^ n_registered) as Hk2.
    { apply lookup_lt_Some in H2. by rewrite product_length in H2. }
    rewrite product_lookup in H1, H2 by (done || lia).
    injection H1 as <-. injection H2 as <-. by apply to_digits_lex.
Qed.

Lemma C3_witness :
  let n := 2 ^ (4 / 2) in
  exists bin_data,
    compute_discretization (fun _ _ => S754_nan) 4 2 = Ok bin_data /\
    Np.nrows bin_data = n ^ 2 /\
    Np.ncols bin_data = 2 + 1 /\
    Np.wf bin_data /\
    (forall k, k < n ^ 2 ->
       exists coords entries,
         product (range n) 2 !! k = Some coords /\
         coords = to_digits n 2 k /\
         Np.rows bin_data !! k = Some (F64.of_int (Z.of_nat k) :: entries) /\
         Qeq (F64.to_Q (F64.of_int (Z.of_nat k))) (inject_Z (Z.of_nat k)) /\
         length entries = 2 /\
         forall i c, coords !! i = Some c ->
           exists x, entries !! i = Some x /\
             Qeq (F64.to_Q x)
                 ((inject_Z (Z.of_nat c) + (1 # 2)) / inject_Z (Z.of_nat n)) /\
             (0 < F64.to_Q x < 1)%Q) /\
    (forall k1 k2 t1 t2,
       k1 < k2 ->
       product (range n) 2 !! k1 = Some t1 ->
       product (range n) 2 !! k2 = Some t2 ->
       lex_ltb t1 t2 = true).
Proof.
  apply (C3_discretization_grid (fun _ _ => S754_nan) 4 2); simpl; lia.
Defined.

(** ** generate_samples and generate_samples_efficient *)

Module SamplingFacts.
Import Transformation.

Lemma add_zero_l_r (x : spec_float) : F64.add F64.zero x = F64.add x F64.zero.
Proof. by destruct x as [[]|[]| |]. Qed.

(** Adding [+0.0] changes nothing but the sign of a negative zero. *)
Lemma add_zero_l (x : spec_float) : x <> S754_zero true -> F64.add F64.zero x = x.
Proof. by destruct x as [[]|[]| |]. Qed.

Lemma repeat_centres_length {A B} (f : A -> B) results rows :
length results <= length rows ->
length (repeat_centres f results rows) = sum_list results.
Proof.
unfold repeat_centres. revert rows.
induction results as [|v results IH]; intros [|row rows] Hlen; simpl in *; try lia.
rewrite length_app, length_replicate, IH by lia. done.
Qed.

Lemma repeat_centres_wf {A B} (f : A -> B) results rows c :
Forall (fun row => length row = c + 1) rows ->
Forall (fun row => length row = c) (repeat_centres f results rows).
Proof.
unfold repeat_centres. intros Hwf. revert results.
induction Hwf as [|row rows Hrow Hwf IH]; intros [|v results]; simpl; try done.
apply Forall_app. split; [|apply IH].
apply Forall_replicate. rewrite length_map, length_drop. lia.
Qed.

Lemma iadd_slice_zeros (c m v : nat) (done : list (list spec_float)) coords :
length coords = c -> v <= m ->
Np.iadd_slice (Np.Array2 c (done ++ replicate m (replicate c F64.zero)))
  (length done) (length done + v) (Np.tile coords v)
= Ok (Np.Array2 c
        ((done ++ replicate v (List.map (F64.add F64.zero) coords))
         ++ replicate (m - v) (replicate c F64.zero))).
Proof.
intros Hc Hv. unfold Np.iadd_slice, Np.broadcast_to, Np.tile, Np.nrows.
cbn [Np.rows Np.ncols].
replace (length done + v - length done) with v by lia.
rewrite drop_app_length, take_replicate, Nat.min_l, !length_replicate by done.
rewrite decide_True by (split; left; done).
rewrite !decide_True by done. cbn [mbind result_bind].
f_equal. f_equal. rewrite <- app_assoc. f_equal; [apply take_app_length|].
f_equal.
- rewrite zip_with_replicate. f_equal.
  rewrite zip_with_replicate_l by lia. reflexivity.
- rewrite <- drop_drop, drop_app_length, drop_replicate. done.
Qed.

Lemma add_bin_zeros (bin_data : Np.ndarray2 spec_float) (c m idx v : nat)
  (done : list (list spec_float)) (row : list spec_float) :
Np.rows bin_data !! idx = Some row -> length row = c + 1 -> v <= m ->
add_bin bin_data
  (Np.Array2 c (done ++ replicate m (replicate c F64.zero)), length done) (idx, v)
= Ok (Np.Array2 c
        ((done ++ replicate v (List.map (F64.add F64.zero) (drop 1 row)))
         ++ replicate (m - v) (replicate c F64.zero)),
      length done + v).
Proof.
intros Hrow Hlen Hv. unfold add_bin, Np.getitem_row_tail.
rewrite Hrow. cbn [mbind result_bind].
rewrite iadd_slice_zeros by (rewrite ?length_drop; lia). done.
Qed.

(** The loop of [generate_samples]: each bin overwrites the next [value]
  rows of zeros with its centre. *)
Lemma add_bin_loop (bin_data : Np.ndarray2 spec_float) (c : nat) :
Forall (fun row => length row = c + 1) (Np.rows bin_data) ->
forall (results : list nat) (idx : nat) (done : list (list spec_float)) (m : nat),
  idx + length results <= Np.nrows bin_data ->
  sum_list results <= m ->
  for_loop (add_bin bin_data) (enumerate_from idx results)
    (Np.Array2 c (done ++ replicate m (replicate c F64.zero)), length done)
  = Ok (Np.Array2 c
          (done
           ++ repeat_centres (F64.add F64.zero) results (drop idx (Np.rows bin_data))
           ++ replicate (m - sum_list results) (replicate c F64.zero)),
        length done + sum_list results).
Proof.
intros Hwf. induction results as [|v results IH]; intros idx done m Hidx Hm.
- simpl. unfold repeat_centres. simpl. by rewrite Nat.sub_0_r, Nat.add_0_r.
- simpl in Hidx, Hm. unfold Np.nrows in Hidx.
  destruct (lookup_lt_is_Some_2 (Np.rows bin_data) idx ltac:(lia)) as [row Hrow].
  assert (length row = c + 1) as Hlen.
  { rewrite Forall_forall in Hwf. apply Hwf. by eapply list_elem_of_lookup_2. }
  cbn [enumerate_from for_loop].
  rewrite (add_bin_zeros bin_data c m idx v done row) by (done || lia).
  cbn [mbind result_bind].
  replace (length done + v)
    with (length (done ++ replicate v (List.map (F64.add F64.zero) (drop 1 row))))
    by (rewrite length_app, length_replicate; done).
  rewrite IH by (unfold Np.nrows; lia).
  rewrite (drop_S _ _ _ Hrow). unfold repeat_centres. cbn [zip_with concat].
  rewrite length_app, length_replicate, <- !app_assoc.
  cbn [sum_list foldr]. fold (sum_list results).
  replace (m - v - sum_list results) with (m - (v + sum_list results)) by lia.
  by rewrite Nat.add_assoc.
Qed.

Lemma map_repeat_centres {A B C} (f : A -> B) (g : B -> C) results rows :
List.map (List.map g) (repeat_centres f results rows)
= repeat_centres (fun x => g (f x)) results rows.
Proof.
unfold repeat_centres. revert rows.
induction results as [|v results IH]; intros [|row rows]; simpl; try done.
rewrite map_app, IH. f_equal.
change (List.map ?h ?l) with (h <$> l). rewrite fmap_replicate. f_equal.
by rewrite <- list_fmap_compose.
Qed.

Lemma generate_samples_closed scaled_uniform results bin_data n_registers :
Np.wf bin_data -> Np.ncols bin_data = n_registers + 1 ->
length results <= Np.nrows bin_data -> 1 <= Np.nrows bin_data ->
1 <= n_registers ->
generate_samples scaled_uniform results bin_data n_registers false
= Ok (Np.Array2 n_registers
        (repeat_centres (fun x => F32.of_f64 (F64.add F64.zero x))
           results (Np.rows bin_data))).
Proof.
intros Hwf Hcols Hlen Hne Hr. unfold generate_samples, check_width.
rewrite !decide_False by lia. cbn [mbind result_bind]. unfold enumerate, Np.zeros.
unfold Np.wf in Hwf. rewrite Hcols in Hwf.
pose proof (add_bin_loop bin_data n_registers Hwf results 0 [] (sum_list results)) as H.
cbn [app length] in H. rewrite H by (simpl; lia). clear H. cbn [mbind result_bind].
unfold Np.map2. cbn [Np.rows Np.ncols].
rewrite Nat.sub_diag, drop_0. cbn [replicate]. rewrite app_nil_r.
by rewrite map_repeat_centres.
Qed.
Lemma concat_length_uniform {A} (l : list (list A)) c :
Forall (fun row => length row = c) l -> length (concat l) = length l * c.
Proof.
induction 1 as [|row l Hrow _ IH]; [done|].
simpl. rewrite length_app, IH, Hrow. done.
Qed.

Lemma chunks_concat {A} (l : list (list A)) c :
Forall (fun row => length row = c) l ->
List.map (fun i => take c (drop (i * c) (concat l))) (seq 0 (length l)) = l.
Proof.
induction 1 as [|row l Hrow _ IH]; [done|].
cbn [length seq List.map concat]. f_equal.
- rewrite Nat.mul_0_l, drop_0. by apply take_app_length'.
- rewrite <- seq_shift, List.map_map. rewrite <- IH at 2.
  apply map_ext. intros i. f_equal.
  replace (S i * c) with (c + i * c) by lia.
  rewrite <- drop_drop. f_equal. by apply drop_app_length'.
Qed.

Lemma reshape_same {A} (a : Np.ndarray2 A) r c :
Forall (fun row => length row = c) (Np.rows a) -> Np.nrows a = r ->
Np.reshape a r c = Ok (Np.Array2 c (Np.rows a)).
Proof.
intros Hwf <-. unfold Np.reshape, Np.nrows.
rewrite decide_True by (by apply concat_length_uniform).
by rewrite chunks_concat.
Qed.

Lemma concat_zip_replicate {A} (results : list nat) (rows : list (list A)) :
concat (zip_with replicate results (List.map (drop 1) rows))
= repeat_centres (fun x => x) results rows.
Proof.
unfold repeat_centres. revert rows.
induction results as [|v results IH]; intros [|row rows]; simpl; try done.
by rewrite IH, map_id.
Qed.

Lemma add_zero_rows (rows : list (list spec_float)) c :
Forall (fun row => length row = c) rows ->
zip_with (zip_with F64.add) rows (replicate (length rows) (replicate c F64.zero))
= List.map (List.map (fun x => F64.add x F64.zero)) rows.
Proof.
induction 1 as [|row l Hrow _ IH]; [done|].
simpl. rewrite IH. f_equal.
rewrite zip_with_replicate_r by lia. reflexivity.
Qed.

Lemma generate_samples_efficient_closed scaled_uniform results bin_data n_registers :
Np.wf bin_data -> Np.ncols bin_data = n_registers + 1 ->
length results = Np.nrows bin_data -> 1 <= Np.nrows bin_data ->
1 <= n_registers ->
generate_samples_efficient scaled_uniform results bin_data n_registers false
= Ok (Np.Array2 n_registers
        (repeat_centres (fun x => F32.of_f64 (F64.add x F64.zero))
           results (Np.rows bin_data))).
Proof.
intros Hwf Hcols Hlen Hne Hr. unfold generate_samples_efficient, check_width.
rewrite !decide_False by lia. cbn [mbind result_bind].
unfold Np.wf in Hwf. rewrite Hcols in Hwf.
unfold Np.repeat_rows, Np.tail_columns, Np.nrows. cbn [Np.rows Np.ncols].
rewrite decide_True by (by rewrite length_map).
cbn [mbind result_bind]. rewrite concat_zip_replicate.
pose proof (repeat_centres_wf (fun x => x) results _ _ Hwf) as Hwf'.
pose proof (repeat_centres_length (fun x : spec_float => x) results (Np.rows bin_data))
  as Hlen'. unfold Np.nrows in Hlen. rewrite Hlen in Hlen'. specialize (Hlen' (le_n _)).
rewrite reshape_same by done. cbn [mbind result_bind].
unfold Np.add, Np.zeros, Np.nrows. cbn [Np.rows Np.ncols].
rewrite decide_True by (by rewrite length_replicate).
cbn [mbind result_bind]. unfold Np.map2. cbn [Np.rows Np.ncols].
rewrite <- Hlen', add_zero_rows by done.
by rewrite !map_repeat_centres.
Qed.
End SamplingFacts.

Import Transformation SamplingFacts.

(** C2 (amended).  For counts [results] with [len(results) == len(bin_data)],
    a non-empty [bin_data] whose rows hold an index and exactly [n_registers]
    coordinates, and [n_registers >= 1], [generate_samples] and
    [generate_samples_efficient] with [noisy=False] both return, and return
    the same float32 array. *)
Theorem C2_sampling_variants_agree
    (scaled_uniform : nat -> nat -> nat -> Np.ndarray2 spec_float)
    (results : list nat) (bin_data : Np.ndarray2 spec_float) (n_registers : nat) :
  Np.wf bin_data ->
  Np.ncols bin_data = n_registers + 1 ->
  length results = Np.nrows bin_data ->
  1 <= Np.nrows bin_data ->
  1 <= n_registers ->
  exists samples,
    generate_samples scaled_uniform results bin_data n_registers false = Ok samples /\
    generate_samples_efficient scaled_uniform results bin_data n_registers false
    = Ok samples.
Proof.
  intros Hwf Hcols Hlen Hne Hr.
  rewrite generate_samples_closed, generate_samples_efficient_closed by (done || lia).
  eexists. split; [reflexivity|].
  f_equal. f_equal. unfold repeat_centres. f_equal.
  apply zip_with_ext; [|done..]. intros v row. f_equal.
  apply map_ext. intros x. by rewrite add_zero_l_r.
Qed.

Lemma C2_witness :
  exists samples,
    generate_samples (fun _ _ _ => Np.zeros 0 0) [2; 1]
      (Np.Array2 2 [[F64.zero; F64.half]; [F64.of_int 1; F64.half]]) 1 false
    = Ok samples /\
    generate_samples_efficient (fun _ _ _ => Np.zeros 0 0) [2; 1]
      (Np.Array2 2 [[F64.zero; F64.half]; [F64.of_int 1; F64.half]]) 1 false
    = Ok samples.
Proof.
  apply (C2_sampling_variants_agree (fun _ _ _ => Np.zeros 0 0) [2; 1]
           (Np.Array2 2 [[F64.zero; F64.half]; [F64.of_int 1; F64.half]]) 1).
  - repeat constructor.
  - reflexivity.
  - reflexivity.
  - vm_compute. lia.
  - lia.
Defined.

(** C2 as stated fails.  With one bin, one coordinate column and two
    registers the loop version broadcasts the coordinate over both columns
    while the vectorised version cannot reshape; with an empty [bin_data]
    both versions raise instead of returning an array. *)
Lemma C2_counterexample :
  let bin_data := Np.Array2 2 [[F64.zero; F64.half]] in
  let empty := Np.Array2 2 ([] : list (list spec_float)) in
  let noise := fun _ _ _ : nat => Np.zeros 0 0 in
  (Np.wf bin_data /\ length [1] = Np.nrows bin_data /\ 1 <= Np.ncols bin_data - 1 /\
   generate_samples noise [1] bin_data 2 false
   = Ok (Np.Array2 2 [[S754_finite false 8388608 (-24); S754_finite false 8388608 (-24)]]) /\
   generate_samples_efficient noise [1] bin_data 2 false = Raise ValueError) /\
  (Np.wf empty /\ length ([] : list nat) = Np.nrows empty /\ 1 <= Np.ncols empty - 1 /\
   generate_samples noise [] empty 1 false = Raise ZeroDivisionError /\
   generate_samples_efficient noise [] empty 1 false = Raise ZeroDivisionError).
Proof.
  cbv zeta. split.
  - split; [repeat constructor|]. split; [reflexivity|]. split; [vm_compute; lia|].
    split; vm_compute; reflexivity.
  - split; [constructor|]. split; [reflexivity|]. split; [vm_compute; lia|].
    split; vm_compute; reflexivity.
Qed.

(** C4 (amended).  For counts [results] with [len(results) <= len(bin_data)],
    a non-empty [bin_data] whose rows hold an index and exactly [n_registers]
    coordinates, and [n_registers >= 1], [generate_samples] with
    [noisy=False] returns [sum(results)] rows of [n_registers] columns: for
    each bin index in increasing order, [results[idx]] copies of
    [bin_data[idx, 1:]], each coordinate [x] stored as [float32(0.0 + x)],
    which is [float32(x)] unless [x] is a negative zero. *)
Theorem C4_samples_are_bin_centres
    (scaled_uniform : nat -> nat -> nat -> Np.ndarray2 spec_float)
    (results : list nat) (bin_data : Np.ndarray2 spec_float) (n_registers : nat) :
  Np.wf bin_data ->
  Np.ncols bin_data = n_registers + 1 ->
  length results <= Np.nrows bin_data ->
  1 <= Np.nrows bin_data ->
  1 <= n_registers ->
  exists samples,
    generate_samples scaled_uniform results bin_data n_registers false = Ok samples /\
    Np.nrows samples = sum_list results /\
    Np.ncols samples = n_registers /\
    Np.wf samples /\
    Np.rows samples
    = repeat_centres (fun x => F32.of_f64 (F64.add F64.zero x)) results (Np.rows bin_data) /\
    (Forall (Forall (fun x => x <> S754_zero true)) (Np.rows bin_data) ->
     Np.rows samples = repeat_centres F32.of_f64 results (Np.rows bin_data)).
Proof.
  intros Hwf Hcols Hlen Hne Hr.
  rewrite generate_samples_closed by done.
  eexists. split; [reflexivity|]. unfold Np.nrows, Np.wf. cbn [Np.rows Np.ncols].
  split; [by apply repeat_centres_length|]. split; [done|].
  split; [apply repeat_centres_wf; unfold Np.wf in Hwf; by rewrite Hcols in Hwf|].
  split; [done|]. intros Hnz. unfold repeat_centres. f_equal.
  clear -Hnz. revert results.
  induction Hnz as [|row rows Hrow _ IH]; intros [|v results];
    cbn [zip_with concat]; try done.
  f_equal; [|apply IH]. f_equal. apply map_ext_in. intros x Hx. cbv beta.
  rewrite add_zero_l; [done|]. rewrite Forall_forall in Hrow. apply Hrow.
  apply list_elem_of_In in Hx. apply list_elem_of_lookup in Hx as [i Hi].
  rewrite lookup_drop in Hi. by eapply list_elem_of_lookup_2.
Qed.

Lemma C4_witness :
  exists samples,
    generate_samples (fun _ _ _ => Np.zeros 0 0) [2; 1]
      (Np.Array2 2 [[F64.zero; F64.half]; [F64.of_int 1; F64.half]; [F64.of_int 2; F64.half]])
      1 false = Ok samples /\
    Np.nrows samples = sum_list [2; 1] /\
    Np.ncols samples = 1 /\
    Np.wf samples /\
    Np.rows samples
    = repeat_centres (fun x => F32.of_f64 (F64.add F64.zero x)) [2; 1]
        [[F64.zero; F64.half]; [F64.of_int 1; F64.half]; [F64.of_int 2; F64.half]] /\
    (Forall (Forall (fun x => x <> S754_zero true))
       [[F64.zero; F64.half]; [F64.of_int 1; F64.half]; [F64.of_int 2; F64.half]] ->
     Np.rows samples
     = repeat_centres F32.of_f64 [2; 1]
         [[F64.zero; F64.half]; [F64.of_int 1; F64.half]; [F64.of_int 2; F64.half]]).
Proof.
  apply (C4_samples_are_bin_centres (fun _ _ _ => Np.zeros 0 0) [2; 1]
           (Np.Array2 2 [[F64.zero; F64.half]; [F64.of_int 1; F64.half];
                         [F64.of_int 2; F64.half]]) 1).
  - repeat constructor.
  - reflexivity.
  - vm_compute. lia.
  - vm_compute. lia.
  - lia.
Defined.

(** C4 as stated fails: a [bin_data] with two coordinate columns and one
    register raises [ValueError], an empty [bin_data] raises
    [ZeroDivisionError], and a negative-zero coordinate comes out as
    positive zero. *)
Lemma C4_counterexample :
  let noise := fun _ _ _ : nat => Np.zeros 0 0 in
  let wide := Np.Array2 3 [[F64.zero; F64.half; F64.half]] in
  let empty := Np.Array2 2 ([] : list (list spec_float)) in
  let negzero := Np.Array2 2 [[F64.zero; S754_zero true]] in
  (Np.wf wide /\ length [1] <= Np.nrows wide /\
   generate_samples noise [1] wide 1 false = Raise ValueError) /\
  (Np.wf empty /\ length ([] : list nat) <= Np.nrows empty /\
   generate_samples noise [] empty 1 false = Raise ZeroDivisionError) /\
  (Np.wf negzero /\ length [1] <= Np.nrows negzero /\
   generate_samples noise [1] negzero 1 false = Ok (Np.Array2 1 [[S754_zero false]]) /\
   repeat_centres F32.of_f64 [1] (Np.rows negzero) = [[S754_zero true]]).
Proof.
  cbv zeta. repeat split; try (repeat constructor; fail); vm_compute; reflexivity.
Qed.

(** ** map_pulp_to_qiskit *)

Module PulpFacts.
Import Ising.

Lemma arguments_of_snoc coefficients arg :
arguments_of (coefficients ++ [arg])
= <[coef_name arg := coef_value arg]> (arguments_of coefficients).
Proof. unfold arguments_of. by rewrite fold_left_app. Qed.

(** The dictionary built from a coefficient list maps a name to the value
  of its last occurrence. *)
Lemma arguments_of_lookup coefficients (name : string) :
arguments_of coefficients !! name
= last (coef_value <$> filter (fun arg => coef_name arg = name) coefficients).
Proof.
induction coefficients as [|arg coefficients IH] using rev_ind; [done|].
rewrite arguments_of_snoc, filter_app, fmap_app, filter_cons, filter_nil.
destruct (decide (coef_name arg = name)) as [Heq|Hne]; cbn [fmap list_fmap].
- by rewrite Heq, lookup_insert_eq, last_snoc.
- rewrite lookup_insert_ne by done. by rewrite app_nil_r.
Qed.

Lemma add_variable_variables qp v :
qp_variables (add_variable qp v)
= qp_variables qp
  ++ (if decide (var_cat v = "Integer") then
        [if decide (var_lowBound v = Some (Qc_of_Z 0) /\ var_upBound v = Some (Qc_of_Z 1))
         then BinaryVar (var_name v)
         else IntegerVar (var_lowBound v) (var_upBound v) (var_name v)]
      else []).
Proof.
unfold add_variable, bound_eq.
destruct (String.eqb_spec (var_cat v) "Integer") as [Hc|Hc].
- rewrite decide_True by done.
  destruct (decide (var_lowBound v = Some (Qc_of_Z 0) /\ var_upBound v = Some (Qc_of_Z 1)))
    as [[Hl Hu]|Hn].
  + by rewrite !bool_decide_eq_true_2.
  + destruct (bool_decide_reflect (var_lowBound v = Some (Qc_of_Z 0)));
      destruct (bool_decide_reflect (var_upBound v = Some (Qc_of_Z 1)));
      simpl; try done. by destruct Hn.
- rewrite decide_False by done. by rewrite app_nil_r.
Qed.

Lemma fold_add_variable vars qp :
let declared := fold_left add_variable vars qp in
qp_variables declared
= qp_variables qp
  ++ ((fun v =>
         if decide (var_lowBound v = Some (Qc_of_Z 0) /\ var_upBound v = Some (Qc_of_Z 1))
         then BinaryVar (var_name v)
         else IntegerVar (var_lowBound v) (var_upBound v) (var_name v))
      <$> filter (fun v => var_cat v = "Integer") vars) /\
qp_objective_ declared = qp_objective_ qp /\
qp_constraints declared = qp_constraints qp.
Proof.
revert qp. induction vars as [|v vars IH]; intros qp; cbn [fold_left].
- by rewrite app_nil_r.
- destruct (IH (add_variable qp v)) as (-> & -> & ->).
  rewrite add_variable_variables, filter_cons.
  split; [|by unfold add_variable; repeat case_match].
  destruct (decide (var_cat v = "Integer")); [|by rewrite app_nil_r].
  by rewrite <- app_assoc.
Qed.

Lemma minus_one_times (c : Qc) : (Qc_of_Z (-1) * c = - c)%Qc.
Proof.
assert (Qc_of_Z (-1) = (- 1)%Qc) as -> by (apply Qc_is_canon; reflexivity).
ring.
Qed.

Lemma add_constraint_spec qp c :
add_constraint qp c
= {| qp_variables := qp_variables qp;
     qp_objective_ := qp_objective_ qp;
     qp_constraints := qp_constraints qp
       ++ [{| lc_linear := arguments_of (con_coefficients c);
              lc_sense := if decide (con_sense c = (-1)%Z) then "LE"
                          else if decide (con_sense c = 1%Z) then "GE" else "E";
              lc_rhs := (- con_constant c)%Qc;
              lc_name := con_name c |}] |}.
Proof.
unfold add_constraint, linear_constraint. rewrite minus_one_times.
do 4 f_equal.
destruct (Z.eqb_spec (con_sense c) (-1)); [by rewrite decide_True|].
rewrite decide_False by done.
destruct (Z.eqb_spec (con_sense c) 1); [by rewrite decide_True|].
by rewrite decide_False.
Qed.

Lemma fold_add_constraint cs qp :
let final := fold_left add_constraint cs qp in
qp_variables final = qp_variables qp /\
qp_objective_ final = qp_objective_ qp /\
qp_constraints final
= qp_constraints qp
  ++ ((fun c =>
         {| lc_linear := arguments_of (con_coefficients c);
            lc_sense := if decide (con_sense c = (-1)%Z) then "LE"
                        else if decide (con_sense c = 1%Z) then "GE" else "E";
            lc_rhs := (- con_constant c)%Qc;
            lc_name := con_name c |}) <$> cs).
Proof.
revert qp. induction cs as [|c cs IH]; intros qp; cbn [fold_left].
- by rewrite app_nil_r.
- destruct (IH (add_constraint qp c)) as (-> & -> & ->).
  rewrite add_constraint_spec. cbn. by rewrite <- app_assoc.
Qed.
End PulpFacts.

Import Ising PulpFacts.

(** C5.  [map_pulp_to_qiskit] declares the objective as a maximisation when
    [problem["parameters"]["sense"] == -1] and as a minimisation otherwise,
    over the dictionary built from the name/value pairs of the objective
    coefficients (a repeated name keeps its last value); every constraint
    is added, in order, with sense "LE" for -1, "GE" for 1 and "E"
    otherwise, with the dictionary of its own coefficients, its name, and
    the negated constant as right-hand side. *)
Theorem C5_objective_and_constraints (problem : problem_dict) :
  let qp := map_pulp_to_qiskit problem in
  let obj_arguments := arguments_of (objective_coefficients problem) in
  qp_objective_ qp
  = Some (if decide (parameters_sense problem = (-1)%Z)
          then Maximize obj_arguments else Minimize obj_arguments) /\
  (forall name : string,
     obj_arguments !! name
     = last (coef_value <$> filter (fun arg => coef_name arg = name)
                                   (objective_coefficients problem))) /\
  qp_constraints qp
  = (fun c =>
       {| lc_linear := arguments_of (con_coefficients c);
          lc_sense := if decide (con_sense c = (-1)%Z) then "LE"
                      else if decide (con_sense c = 1%Z) then "GE" else "E";
          lc_rhs := (- con_constant c)%Qc;
          lc_name := con_name c |}) <$> constraints problem.
Proof.
  intros qp obj_arguments. unfold qp, map_pulp_to_qiskit.
  match goal with |- context [fold_left add_constraint _ ?q] =>
    destruct (fold_add_constraint (constraints problem) q) as (_ & -> & ->) end.
  destruct (fold_add_variable (variables problem) new_QuadraticProgram) as (_ & _ & Hc).
  split; [|split].
  - destruct (Z.eqb_spec (parameters_sense problem) (-1)).
    + by rewrite decide_True.
    + by rewrite decide_False.
  - intros name. apply arguments_of_lookup.
  - destruct (Z.eqb_spec (parameters_sense problem) (-1)); cbn [qp_constraints maximize minimize];
      by rewrite Hc.
Qed.

(** C6.  [map_pulp_to_qiskit] adds one variable, in order, for each entry
    of [problem["variables"]] whose "cat" is "Integer" and none for any
    other entry; the variable is binary exactly when lowBound is 0 and
    upBound is 1, and otherwise an integer variable with those bounds. *)
Theorem C6_declared_variables (problem : problem_dict) :
  qp_variables (map_pulp_to_qiskit problem)
  = (fun v =>
       if decide (var_lowBound v = Some (Qc_of_Z 0) /\ var_upBound v = Some (Qc_of_Z 1))
       then BinaryVar (var_name v)
       else IntegerVar (var_lowBound v) (var_upBound v) (var_name v))
    <$> filter (fun v => var_cat v = "Integer") (variables problem).
Proof.
  unfold map_pulp_to_qiskit.
  match goal with |- context [fold_left add_constraint _ ?q] =>
    destruct (fold_add_constraint (constraints problem) q) as (-> & _ & _) end.
  destruct (fold_add_variable (variables problem) new_QuadraticProgram) as (Hv & _ & _).
  by destruct (Z.eqb (parameters_sense problem) (-1)); cbn [qp_variables maximize minimize];
    rewrite Hv.
Qed.

(** ** Ising.map: reading J and t off the operator *)

Module ExtractFacts.
Import Itertools Ising.

Lemma for_loop_app {A S} (body : S -> A -> result S) l1 l2 s :
for_loop body (l1 ++ l2) s = for_loop body l1 s ≫= for_loop body l2.
Proof.
revert s. induction l1 as [|x l1 IH]; intros s; simpl; [done|].
destruct (body s x); simpl; [apply IH|done].
Qed.

Lemma locate_from_bound {A} (pred : A -> bool) s l :
Forall (fun i => i < s + length l) (locate_from pred s l).
Proof.
revert s. induction l as [|a l IH]; intros s; simpl; [constructor|].
specialize (IH (S s)).
assert (Forall (fun i => i < s + S (length l)) (locate_from pred (S s) l)).
{ eapply Forall_impl; [exact IH|]. simpl. intros; lia. }
destruct (pred a); [constructor; [lia|done]|done].
Qed.

Lemma z_positions_bound p :
Forall (fun i => i < String.length p) (z_positions p).
Proof.
unfold z_positions, locate.
pose proof (locate_from_bound is_Z 0 (list_ascii_of_string p)) as H.
assert (length (list_ascii_of_string p) = String.length p) as Hlen.
{ clear. induction p; simpl; [done|]. by rewrite IHp. }
by rewrite Hlen in H.
Qed.

Lemma last_coefficient_snoc terms p c positions :
last_coefficient (terms ++ [(p, c)]) positions
= if decide (z_positions p = positions) then c else last_coefficient terms positions.
Proof.
unfold last_coefficient. rewrite filter_app, fmap_app, filter_cons, filter_nil.
cbn [fst]. destruct (decide (z_positions p = positions)); cbn [fmap list_fmap snd].
- by rewrite last_snoc.
- by rewrite app_nil_r.
Qed.

(** What the pair [(t_matrix, j_matrix)] holds after the terms [terms]. *)
Lemma extract_last_wins (n : nat) (terms : list (string * complex)) :
Forall (fun term => String.length term.1 = n) terms ->
exists t j,
  for_loop record_term terms
    (replicate n complex_zero, replicate n (replicate n complex_zero)) = Ok (t, j) /\
  length t = n /\ length j = n /\ Forall (fun row => length row = n) j /\
  (forall i, i < n -> t !! i = Some (last_coefficient terms [i])) /\
  (forall i k, i < n -> k < n ->
     j !! i ≫= (fun row => row !! k) = Some (last_coefficient terms [i; k])).
Proof.
induction terms as [|[p c] terms IH] using rev_ind; intros Hlen.
- exists (replicate n complex_zero), (replicate n (replicate n complex_zero)).
  split; [done|]. rewrite !length_replicate.
  split; [done|]. split; [done|]. split; [by apply Forall_replicate, length_replicate|].
  split.
  + intros i Hi. by rewrite lookup_replicate_2.
  + intros i k Hi Hk. rewrite lookup_replicate_2 by done. simpl.
    by rewrite lookup_replicate_2.
- apply Forall_app in Hlen as [Hlen Hp]. rewrite Forall_singleton in Hp. simpl in Hp.
  destruct (IH Hlen) as (t & j & Hrun & Ht & Hj & Hrows & Htv & Hjv).
  rewrite for_loop_app, Hrun. cbn [mbind result_bind for_loop].
  pose proof (z_positions_bound p) as Hb. rewrite Hp in Hb.
  unfold record_term.
  destruct (z_positions p) as [|i [|k [|k' rest]]] eqn:Hz.
  + exists t, j. split; [done|]. do 3 (split; [done|]). split.
    * intros i Hi. rewrite last_coefficient_snoc, Hz. by rewrite decide_False; [apply Htv|].
    * intros i k Hi Hk. rewrite last_coefficient_snoc, Hz.
      by rewrite decide_False; [apply Hjv|].
  + rewrite Forall_singleton in Hb.
    unfold setitem_index. rewrite decide_True by lia. cbn [mbind result_bind].
    exists (<[i := c]> t), j. split; [done|]. rewrite length_insert.
    do 3 (split; [done|]). split.
    * intros i' Hi'. rewrite last_coefficient_snoc, Hz.
      destruct (decide (i = i')) as [->|Hne].
      -- rewrite decide_True by done. apply list_lookup_insert_eq. lia.
      -- rewrite decide_False by congruence.
         rewrite list_lookup_insert_ne by done. by apply Htv.
    * intros i' k' Hi' Hk'. rewrite last_coefficient_snoc, Hz.
      by rewrite decide_False; [apply Hjv|].
  + apply Forall_cons in Hb as [Hi Hb]. rewrite Forall_singleton in Hb.
    unfold setitem_index2, setitem_index.
    destruct (lookup_lt_is_Some_2 j i ltac:(lia)) as [row Hrow]. rewrite Hrow.
    assert (length row = n) as Hrl.
    { rewrite Forall_forall in Hrows. apply Hrows. by eapply list_elem_of_lookup_2. }
    rewrite decide_True by lia. cbn [mbind result_bind].
    exists t, (<[i := <[k := c]> row]> j). split; [done|]. rewrite length_insert.
    split; [done|]. split; [done|]. split.
    { apply Forall_insert; [done|]. by rewrite length_insert. }
    split.
    * intros i' Hi'. rewrite last_coefficient_snoc, Hz.
      by rewrite decide_False; [apply Htv|].
    * intros i' k' Hi' Hk'. rewrite last_coefficient_snoc, Hz.
      destruct (decide (i = i')) as [->|Hne].
      -- rewrite list_lookup_insert_eq by lia. simpl.
         destruct (decide (k = k')) as [->|Hnk].
         ++ rewrite decide_True by done. apply list_lookup_insert_eq. lia.
         ++ rewrite decide_False by congruence.
            rewrite list_lookup_insert_ne by done.
            specialize (Hjv i' k' Hi' Hk'). by rewrite Hrow in Hjv.
      -- rewrite decide_False by congruence.
         rewrite list_lookup_insert_ne by done. by apply Hjv.
  + exists t, j. split; [done|]. do 3 (split; [done|]). split.
    * intros i' Hi'. rewrite last_coefficient_snoc, Hz.
      by rewrite decide_False; [apply Htv|].
    * intros i' k'' Hi' Hk'. rewrite last_coefficient_snoc, Hz.
      by rewrite decide_False; [apply Hjv|].
Qed.

Lemma filter_none {A} (P : A -> Prop) `{!forall x, Decision (P x)} (l : list A) :
(forall x, x ∈ l -> ~ P x) -> filter P l = [].
Proof.
induction l as [|x l IH]; intros Hno; [done|].
rewrite filter_cons, decide_False by (apply Hno; left).
apply IH. intros y Hy. apply Hno. by right.
Qed.

Lemma filter_unique {A B} `{EqDecision B} (f : A -> B) (l : list A) (x : A) :
NoDup (f <$> l) -> x ∈ l -> filter (fun y => f y = f x) l = [x].
Proof.
induction l as [|y l IH]; intros Hnd Hin; [by apply elem_of_nil in Hin|].
cbn [fmap list_fmap] in Hnd. apply NoDup_cons in Hnd as [Hy Hnd].
rewrite filter_cons. apply elem_of_cons in Hin as [->|Hin].
- rewrite decide_True by done. f_equal. apply filter_none.
  intros z Hz Heq. apply Hy. rewrite <- Heq. by apply list_elem_of_fmap_2.
- rewrite decide_False; [by apply IH|].
  intros Heq. apply Hy. rewrite Heq. by apply list_elem_of_fmap_2.
Qed.

(** With pairwise different Z patterns, the last term with a given
  pattern is the only one. *)
Lemma last_coefficient_unique terms p c :
NoDup ((fun term => z_positions term.1) <$> terms) ->
(p, c) ∈ terms ->
last_coefficient terms (z_positions p) = c.
Proof.
intros Hnd Hin. unfold last_coefficient.
by rewrite (filter_unique (fun term => z_positions term.1) terms (p, c) Hnd Hin).
Qed.

Lemma last_coefficient_none terms positions :
(forall p c, (p, c) ∈ terms -> z_positions p <> positions) ->
last_coefficient terms positions = complex_zero.
Proof.
intros Hno. unfold last_coefficient. rewrite filter_none; [done|].
intros [p c] Hin. by apply Hno in Hin.
Qed.
End ExtractFacts.

Import Itertools Ising ExtractFacts.

(** C7.  [Ising.map] sends the linear program through the converters of
    qiskit-optimization and returns the dictionary [{"J": j_matrix, "t": t_matrix}]
    with the elapsed time.  For an operator whose Pauli strings have one
    letter per qubit and whose terms have pairwise different Z patterns (the
    library returns it simplified): a term with its only 'Z' at [i] puts its
    coefficient in [t[i]]; a term with 'Z' exactly at [i] and [k], in this
    order, puts it in [J[i][k]]; every other entry of [t] and [J] is zero,
    so terms with any other number of Z's contribute to neither. *)
Theorem C7_map_reads_J_and_t
    (convert : QuadraticProgram -> QuadraticProgram)
    (to_ising : QuadraticProgram -> PauliSumOp * number)
    (Time : Type) (start_time_measurement : unit -> Time)
    (end_time_measurement : Time -> Time)
    (self : self_state) (problem : problem_dict) (config : dict) :
  let qubo := convert (map_pulp_to_qiskit problem) in
  let qubitOp := (to_ising qubo).1 in
  let n := num_qubits qubitOp in
  Forall (fun term => String.length term.1 = n) (terms qubitOp) ->
  NoDup ((fun term => z_positions term.1) <$> terms qubitOp) ->
  exists self' t j,
    map convert to_ising Time start_time_measurement end_time_measurement
      self problem config
    = Ok (self',
          (<["J" := Matrix j]> (<["t" := Vector t]> ∅),
           end_time_measurement (start_time_measurement tt))) /\
    global_variables self' = VList (VStr <$> (variable_name <$> qp_variables qubo)) /\
    length t = n /\ length j = n /\ Forall (fun row => length row = n) j /\
    (forall p c i, (p, c) ∈ terms qubitOp -> z_positions p = [i] -> t !! i = Some c) /\
    (forall p c i k, (p, c) ∈ terms qubitOp -> z_positions p = [i; k] ->
       j !! i ≫= (fun row => row !! k) = Some c) /\
    (forall i, i < n ->
       (forall p c, (p, c) ∈ terms qubitOp -> z_positions p <> [i]) ->
       t !! i = Some complex_zero) /\
    (forall i k, i < n -> k < n ->
       (forall p c, (p, c) ∈ terms qubitOp -> z_positions p <> [i; k]) ->
       j !! i ≫= (fun row => row !! k) = Some complex_zero).
Proof.
  intros qubo qubitOp n Hlen Hnd.
  destruct (extract_last_wins n (terms qubitOp) Hlen)
    as (t & j & Hrun & Ht & Hj & Hrows & Htv & Hjv).
  unfold map, extract. fold qubo qubitOp n. rewrite Hrun. cbn [mbind result_bind].
  eexists _, t, j. split; [reflexivity|]. split; [reflexivity|].
  do 3 (split; [done|]).
  assert (forall p c, (p, c) ∈ terms qubitOp ->
            Forall (fun i => i < n) (z_positions p)) as Hbound.
  { intros p c Hin. rewrite Forall_forall in Hlen.
    pose proof (Hlen _ Hin) as Hp. simpl in Hp. rewrite <- Hp.
    apply z_positions_bound. }
  split; [|split; [|split]].
  - intros p c i Hin Hz. pose proof (Hbound p c Hin) as Hb. rewrite Hz in Hb.
    rewrite Forall_singleton in Hb. rewrite (Htv i Hb), <- Hz.
    by rewrite (last_coefficient_unique _ p c Hnd Hin).
  - intros p c i k Hin Hz. pose proof (Hbound p c Hin) as Hb. rewrite Hz in Hb.
    apply Forall_cons in Hb as [Hi Hb]. rewrite Forall_singleton in Hb.
    rewrite (Hjv i k Hi Hb), <- Hz.
    by rewrite (last_coefficient_unique _ p c Hnd Hin).
  - intros i Hi Hno. by rewrite (Htv i Hi), last_coefficient_none.
  - intros i k Hi Hk Hno. by rewrite (Hjv i k Hi Hk), last_coefficient_none.
Qed.

Lemma C7_witness :
  let convert := fun qp : QuadraticProgram => qp in
  let to_ising := fun _ : QuadraticProgram =>
    ({| num_qubits := 2;
        terms := [("IZ"%string, (F64.half, F64.zero));
                  ("ZZ"%string, (F64.of_int 1, F64.zero));
                  ("II"%string, (F64.of_int 2, F64.zero))] |}, Qc_of_Z 0) in
  let problem := {| variables := []; objective_coefficients := [];
                    parameters_sense := 1%Z; constraints := [] |} in
  let qubitOp := (to_ising (convert (map_pulp_to_qiskit problem))).1 in
  exists self' t j,
    map convert to_ising nat (fun _ => 0) (fun start => start) new_Ising problem ∅
    = Ok (self', (<["J" := Matrix j]> (<["t" := Vector t]> ∅), 0)) /\
    global_variables self' = VList [] /\
    length t = 2 /\ length j = 2 /\ Forall (fun row => length row = 2) j /\
    (forall p c i, (p, c) ∈ terms qubitOp -> z_positions p = [i] -> t !! i = Some c) /\
    (forall p c i k, (p, c) ∈ terms qubitOp -> z_positions p = [i; k] ->
       j !! i ≫= (fun row => row !! k) = Some c) /\
    (forall i, i < 2 ->
       (forall p c, (p, c) ∈ terms qubitOp -> z_positions p <> [i]) ->
       t !! i = Some complex_zero) /\
    (forall i k, i < 2 -> k < 2 ->
       (forall p c, (p, c) ∈ terms qubitOp -> z_positions p <> [i; k]) ->
       j !! i ≫= (fun row => row !! k) = Some complex_zero).
Proof.
  intros convert to_ising problem qubitOp.
  apply (C7_map_reads_J_and_t convert to_ising nat (fun _ => 0) (fun start => start)
           new_Ising problem ∅).
  - repeat constructor.
  - apply (bool_decide_unpack _). vm_compute. exact I.
Defined.

(** ** _convert_ising_to_qubo *)

Module QuboFacts.
Import Ising.

(** Visiting the positions in order rewrites the entries one by one. *)
Lemma nditer_loop {A} `{Dtype A} (rest : list A) :
forall pre : list A,
  fold_left
    (fun data i =>
       match data !! i with
       | Some x => if dt_eq_minus_one x then <[i := dt_zero]> data else data
       | None => data
       end)
    (seq (length pre) (length rest)) (pre ++ rest)
  = pre ++ ((fun x => if dt_eq_minus_one x then dt_zero else x) <$> rest).
Proof.
induction rest as [|x rest IH]; intros pre; [done|].
cbn [length seq fold_left fmap list_fmap].
rewrite list_lookup_middle by done.
replace (if dt_eq_minus_one x then <[length pre:=dt_zero]> (pre ++ x :: rest)
         else pre ++ x :: rest)
  with ((pre ++ [if dt_eq_minus_one x then dt_zero else x]) ++ rest).
- replace (S (length pre))
    with (length (pre ++ [if dt_eq_minus_one x then dt_zero else x]))
    by (rewrite length_app; simpl; lia).
  rewrite IH. by rewrite <- app_assoc.
- rewrite <- app_assoc. destruct (dt_eq_minus_one x); [|done].
  by rewrite insert_app_r_alt, Nat.sub_diag.
Qed.

Lemma replace_idempotent {A} `{Dtype A} (x : A) :
let f := fun x => if dt_eq_minus_one x then dt_zero else x in
f (f x) = f x.
Proof.
simpl. destruct (dt_eq_minus_one x) eqn:Hx; [|by rewrite Hx].
by rewrite dt_zero_not_minus_one.
Qed.
End QuboFacts.

Import Ising QuboFacts.


(** ** Transformation.postprocess *)

Import Transformation.

(** C8.  [postprocess] returns normally exactly when [reverse_transform]
    returns a dictionary [d]; it then returns [d] with "Transformation" set
    to [True] and, when [input_data] has the key "inference", with
    "inference" set to [input_data["inference"]], together with the elapsed
    time.  With the inherited [reverse_transform], which returns [None],
    [postprocess] raises [TypeError]. *)
Theorem C8_postprocess
    (Time : Type) (start_time_measurement : unit -> Time)
    (end_time_measurement : Time -> Time)
    (self : class) (input_data config : dict) :
  (forall out : value * Time,
     postprocess Time start_time_measurement end_time_measurement self input_data config
     = Ok out
     <-> exists d : dict,
           reverse_transform self input_data = Ok (VDict d) /\
           out = (VDict (match input_data !! "inference" with
                         | Some inference =>
                             <["inference" := inference]> (<["Transformation" := VBool true]> d)
                         | None => <["Transformation" := VBool true]> d
                         end),
                  end_time_measurement (start_time_measurement tt))) /\
  (forall transform,
     postprocess Time start_time_measurement end_time_measurement
       (inheriting transform) input_data config
     = Raise TypeError).
Proof.
  split; [|done].
  intros out. unfold postprocess.
  destruct (reverse_transform self input_data) as [[| | | | | |d]|e];
    cbn [mbind result_bind setitem]; try (split; [done|by intros (d & ? & _)]); try (split; [done|by intros (d' & ? & _)]).
  destruct (input_data !! "inference") as [inference|];
    cbn [mbind result_bind setitem].
  - split.
    + intros [= <-]. by exists d.
    + intros (d' & [= <-] & ->). done.
  - split.
    + intros [= <-]. by exists d.
    + intros (d' & [= <-] & ->). done.
Qed.

(** ** HelperClass *)

(** C9.  Whenever the constructor of the base class [Device], called with
    [device_name = s], returns, [HelperClass(s)] returns the object that
    constructor built with the attribute [device] set to [s] and every
    other attribute untouched; the constructor of [HelperClass] adds no
    failure of its own. *)
Theorem C9_helper_class
    (Device__init__ : dict -> string -> result dict)
    (self attrs : dict) (s : string) :
  Device__init__ self s = Ok attrs ->
  exists obj : dict,
    HelperClass.__init__ Device__init__ self s = Ok obj /\
    obj !! "device" = Some (VStr s) /\
    (forall key : string, key <> "device" -> obj !! key = attrs !! key).
Proof.
  intros Hbase. unfold HelperClass.__init__. rewrite Hbase. cbn [mbind result_bind].
  eexists. split; [reflexivity|]. split.
  - apply lookup_insert_eq.
  - intros key Hkey. by rewrite lookup_insert_ne.
Qed.

Lemma C9_witness :
  exists obj : dict,
    HelperClass.__init__
      (fun self device_name => Ok (<["device_name" := VStr device_name]> self))
      ∅ "default.qubit"
    = Ok obj /\
    obj !! "device" = Some (VStr "default.qubit") /\
    (forall key : string, key <> "device" ->
       obj !! key = (<["device_name" := VStr "default.qubit"]> (∅ : dict)) !! key).
Proof.
  apply (C9_helper_class
           (fun self device_name => Ok (<["device_name" := VStr device_name]> self))
           ∅ (<["device_name" := VStr "default.qubit"]> ∅) "default.qubit").
  reflexivity.
Defined.

(** ** Further properties of the discretization *)

Module GridFacts.
Import Itertools ItertoolsFacts Transformation DiscretizationFacts DiscretizationAux.

Lemma grid_rows_wf (g : nat -> spec_float) (n r : nat) :
  n <> 0 ->
  Forall (fun row => length row = r + 1)
    (List.map (fun '(k, coords) => F64.of_int (Z.of_nat k) :: List.map g coords)
       (enumerate (product (range n) r))).
Proof.
  intros Hn. apply Forall_forall. intros row Hrow.
  apply list_elem_of_In, in_map_iff in Hrow as ([k coords] & <- & Hin).
  apply list_elem_of_In, enumerate_from_elem, product_elem in Hin as [Hlen _]; [|done].
  simpl. rewrite length_map. lia.
Qed.

Lemma product_range_1 (r : nat) : product (range 1) r = [replicate r 0].
Proof.
  apply list_eq_same_length with 1.
  - done.
  - by rewrite product_length, Nat.pow_1_l.
  - intros i x y Hi Hx Hy. assert (i = 0) as -> by lia.
    rewrite product_lookup in Hx by (rewrite ?Nat.pow_1_l; lia).
    simpl in Hy. injection Hx as <-. injection Hy as <-.
    clear. induction r as [|r IH]; [done|]. cbn [to_digits replicate].
    rewrite Nat.pow_1_l. by rewrite IH.
Qed.
End GridFacts.

Import Itertools ItertoolsFacts Transformation DiscretizationFacts DiscretizationAux GridFacts.

(** X1.  [compute_discretization] raises [ZeroDivisionError] when
    [n_registered = 0]; for every other input, of any size, it returns a
    well-shaped array of [n^n_registered] rows and [n_registered + 1]
    columns, so the loop never indexes outside the buffer. *)
Theorem X1_discretization_total
    (uninit : nat -> nat -> spec_float) (n_qubits n_registered : nat) :
  (n_registered = 0 ->
   compute_discretization uninit n_qubits n_registered = Raise ZeroDivisionError) /\
  (n_registered <> 0 ->
   exists bin_data,
     compute_discretization uninit n_qubits n_registered = Ok bin_data /\
     Np.nrows bin_data = (2 ^ (n_qubits / n_registered)) ^ n_registered /\
     Np.ncols bin_data = n_registered + 1 /\
     Np.wf bin_data).
Proof.
  split.
  - intros ->. reflexivity.
  - intros Hr. rewrite compute_discretization_closed by done.
    eexists. split; [reflexivity|]. unfold Np.nrows, Np.wf. cbn [Np.rows Np.ncols].
    split; [unfold enumerate; by rewrite length_map, enumerate_from_length, product_length|].
    split; [done|]. apply grid_rows_wf. by apply Nat.pow_nonzero.
Qed.

(** X2.  Every entry of the buffer obtained from [np.empty] is overwritten:
    the result of [compute_discretization] does not depend on what the
    uninitialised memory held. *)
Theorem X2_discretization_ignores_uninitialised
    (uninit uninit' : nat -> nat -> spec_float) (n_qubits n_registered : nat) :
  compute_discretization uninit n_qubits n_registered
  = compute_discretization uninit' n_qubits n_registered.
Proof.
  destruct (decide (n_registered = 0)) as [->|Hr]; [done|].
  by rewrite !compute_discretization_closed.
Qed.

(** X3.  For grids of any size the two discretization functions fail
    together (exactly when [n_registers = 0]) and otherwise return arrays
    of one shape whose index columns agree: row [k] starts with [float(k)]
    in both. *)
Theorem X3_discretization_shapes_agree
    (uninit : nat -> nat -> spec_float) (n_qubits n_registers : nat) :
  (n_registers = 0 ->
   compute_discretization uninit n_qubits n_registers = Raise ZeroDivisionError /\
   compute_discretization_efficient n_qubits n_registers = Raise ZeroDivisionError) /\
  (n_registers <> 0 ->
   exists a b,
     compute_discretization uninit n_qubits n_registers = Ok a /\
     compute_discretization_efficient n_qubits n_registers = Ok b /\
     Np.nrows a = Np.nrows b /\ Np.ncols a = Np.ncols b /\ Np.wf b /\
     forall k, k < Np.nrows a ->
       (Np.rows a !! k ≫= head) = Some (F64.of_int (Z.of_nat k)) /\
       (Np.rows b !! k ≫= head) = Some (F64.of_int (Z.of_nat k))).
Proof.
  split.
  - intros ->. by split.
  - intros Hr.
    rewrite compute_discretization_closed, compute_discretization_efficient_closed by done.
    eexists _, _. split; [reflexivity|]. split; [reflexivity|].
    unfold Np.nrows, Np.wf. cbn [Np.rows Np.ncols].
    set (n := 2 ^ (n_qubits / n_registers)).
    assert (n <> 0) as Hn by (by apply Nat.pow_nonzero).
    split; [by rewrite !length_map|]. split; [lia|].
    split; [rewrite Nat.add_comm; by apply grid_rows_wf|].
    intros k Hk. unfold enumerate in *.
    rewrite length_map, enumerate_from_length in Hk.
    destruct (lookup_lt_is_Some_2 _ k Hk) as [coords Hc].
    change (List.map ?f ?l) with (f <$> l).
    rewrite !list_lookup_fmap, (enumerate_from_lookup 0 _ k _ Hc). by split.
Qed.

(** X4.  With fewer qubits than registers every register gets zero qubits:
    the grid is the single bin [[0, 0.5, ..., 0.5]], the centre of the unit
    cube, from both functions. *)
Theorem X4_discretization_single_bin
    (uninit : nat -> nat -> spec_float) (n_qubits n_registers : nat) :
  n_qubits < n_registers ->
  compute_discretization uninit n_qubits n_registers
  = Ok (Np.Array2 (n_registers + 1) [F64.zero :: replicate n_registers F64.half]) /\
  compute_discretization_efficient n_qubits n_registers
  = Ok (Np.Array2 (n_registers + 1) [F64.zero :: replicate n_registers F64.half]).
Proof.
  intros Hlt.
  rewrite compute_discretization_closed, compute_discretization_efficient_closed by lia.
  rewrite Nat.div_small by done. change (2 ^ 0) with 1.
  rewrite product_range_1. cbn [enumerate enumerate_from List.map].
  change (List.map ?f ?l) with (f <$> l). rewrite !fmap_replicate.
  rewrite (Nat.add_comm 1 n_registers). split; reflexivity.
Qed.

Lemma X4_witness :
  compute_discretization (fun _ _ => S754_nan) 2 3
  = Ok (Np.Array2 (3 + 1) [F64.zero :: replicate 3 F64.half]) /\
  compute_discretization_efficient 2 3
  = Ok (Np.Array2 (3 + 1) [F64.zero :: replicate 3 F64.half]).
Proof.
  apply (X4_discretization_single_bin (fun _ _ => S754_nan) 2 3). lia.
Defined.

(** ** Further properties of the sample generators *)

Module SamplingEdges.
Import Transformation SamplingFacts ExtractFacts.

Lemma enumerate_from_app {A} i (l1 l2 : list A) :
  enumerate_from i (l1 ++ l2)
  = enumerate_from i l1 ++ enumerate_from (i + length l1) l2.
Proof.
  revert i. induction l1 as [|x l1 IH]; intros i; simpl.
  - by rewrite Nat.add_0_r.
  - rewrite IH. do 3 f_equal. lia.
Qed.

Lemma sum_list_app_le (l1 l2 : list nat) : sum_list l1 <= sum_list (l1 ++ l2).
Proof. induction l1 as [|x l1 IH]; simpl; lia. Qed.

Lemma elem_of_repeat_centres {A B} (f : A -> B) results rows (sample : list B) :
  sample ∈ repeat_centres f results rows <->
  exists idx value row,
    results !! idx = Some value /\ 0 < value /\
    rows !! idx = Some row /\ sample = List.map f (drop 1 row).
Proof.
  unfold repeat_centres. revert rows.
  induction results as [|v results IH]; intros rows.
  - simpl. split; [by intros ?%elem_of_nil|by intros (idx & ? & ? & ? & _)].
  - destruct rows as [|row rows].
    + simpl. split; [by intros ?%elem_of_nil|by intros (idx & ? & ? & _ & _ & ? & _)].
    + cbn [zip_with concat]. rewrite elem_of_app, IH. split.
      * intros [Hin|(idx & value & row' & H1 & H2 & H3 & H4)].
        -- apply elem_of_replicate in Hin as [-> Hv].
           exists 0, v, row. repeat split; try done. lia.
        -- exists (S idx), value, row'. by repeat split.
      * intros (idx & value & row' & H1 & H2 & H3 & H4).
        destruct idx as [|idx]; simpl in H1, H3.
        -- injection H1 as ->. injection H3 as ->. left.
           apply elem_of_replicate. split; [done|lia].
        -- right. exists idx, value, row'. by repeat split.
Qed.
End SamplingEdges.

Import Transformation SamplingFacts SamplingEdges ExtractFacts.

(** X5.  A histogram with more entries than [bin_data] has rows makes the
    two generators fail differently: the loop runs through the bins that
    exist and then raises [IndexError], the vectorised version raises
    [ValueError] before producing anything. *)
Theorem X5_histogram_longer_than_grid
    (scaled_uniform : nat -> nat -> nat -> Np.ndarray2 spec_float)
    (results : list nat) (bin_data : Np.ndarray2 spec_float) (n_registers : nat) :
  Np.wf bin_data ->
  Np.ncols bin_data = n_registers + 1 ->
  1 <= Np.nrows bin_data ->
  Np.nrows bin_data < length results ->
  1 <= n_registers ->
  generate_samples scaled_uniform results bin_data n_registers false = Raise IndexError /\
  generate_samples_efficient scaled_uniform results bin_data n_registers false
  = Raise ValueError.
Proof.
  intros Hwf Hcols Hne Hlen Hr. split.
  - unfold generate_samples, check_width.
    rewrite !decide_False by lia. cbn [mbind result_bind]. unfold enumerate, Np.zeros.
    unfold Np.wf in Hwf. rewrite Hcols in Hwf.
    pose proof (add_bin_loop bin_data n_registers Hwf (take (Np.nrows bin_data) results)
                  0 [] (sum_list results)) as Hloop.
    cbn [app length] in Hloop.
    assert (sum_list (take (Np.nrows bin_data) results) <= sum_list results) as Hsum.
    { rewrite <- (take_drop (Np.nrows bin_data) results) at 2. apply sum_list_app_le. }
    set (n_shots := sum_list results) in *.
    rewrite <- (take_drop (Np.nrows bin_data) results).
    rewrite enumerate_from_app, for_loop_app.
    rewrite Hloop; clear Hloop.
    + cbn [mbind result_bind]. rewrite length_take, Nat.min_l by lia.
      destruct (drop (Np.nrows bin_data) results) as [|v rest] eqn:Hd.
      { apply (f_equal length) in Hd. rewrite length_drop in Hd. simpl in Hd. lia. }
      cbn [enumerate_from for_loop]. unfold add_bin, Np.getitem_row_tail.
      rewrite lookup_ge_None_2 by (unfold Np.nrows; lia). done.
    + rewrite length_take. lia.
    + done.
  - unfold generate_samples_efficient, check_width.
    rewrite !decide_False by lia. cbn [mbind result_bind].
    unfold Np.repeat_rows, Np.tail_columns, Np.nrows in *. cbn [Np.rows Np.ncols].
    rewrite length_map, decide_False by lia.
    destruct results as [|v [|w rest]]; simpl in Hlen; [lia|lia|done].
Qed.

Lemma X5_witness :
  generate_samples (fun _ _ _ => Np.zeros 0 0) [1; 2]
    (Np.Array2 2 [[F64.zero; F64.half]]) 1 false = Raise IndexError /\
  generate_samples_efficient (fun _ _ _ => Np.zeros 0 0) [1; 2]
    (Np.Array2 2 [[F64.zero; F64.half]]) 1 false = Raise ValueError.
Proof.
  apply (X5_histogram_longer_than_grid (fun _ _ _ => Np.zeros 0 0) [1; 2]
           (Np.Array2 2 [[F64.zero; F64.half]]) 1).
  - repeat constructor.
  - reflexivity.
  - vm_compute. lia.
  - vm_compute. lia.
  - lia.
Defined.

(** X6.  The width is computed before anything else, with or without
    noise: with [n_registers = 0] or an empty [bin_data] both generators
    raise [ZeroDivisionError], whatever the histogram. *)
Theorem X6_width_division_by_zero
    (scaled_uniform : nat -> nat -> nat -> Np.ndarray2 spec_float)
    (results : list nat) (bin_data : Np.ndarray2 spec_float) (n_registers : nat)
    (noisy : bool) :
  n_registers = 0 \/ Np.nrows bin_data = 0 ->
  generate_samples scaled_uniform results bin_data n_registers noisy
  = Raise ZeroDivisionError /\
  generate_samples_efficient scaled_uniform results bin_data n_registers noisy
  = Raise ZeroDivisionError.
Proof.
  intros Hzero. unfold generate_samples, generate_samples_efficient, check_width.
  destruct (decide (n_registers = 0)); [done|].
  destruct Hzero as [?|Hrows]; [done|]. by rewrite Hrows.
Qed.

Lemma X6_witness :
  generate_samples (fun _ _ _ => Np.zeros 0 0) [3] (Np.Array2 2 []) 1 true
  = Raise ZeroDivisionError /\
  generate_samples_efficient (fun _ _ _ => Np.zeros 0 0) [3] (Np.Array2 2 []) 1 true
  = Raise ZeroDivisionError.
Proof.
  apply (X6_width_division_by_zero (fun _ _ _ => Np.zeros 0 0) [3] (Np.Array2 2 []) 1 true).
  right. reflexivity.
Defined.

(** X7.  Without noise every returned sample is the centre of a bin that
    was measured at least once, and every such bin contributes a sample:
    bins with count zero never appear. *)
Theorem X7_samples_come_from_measured_bins
    (scaled_uniform : nat -> nat -> nat -> Np.ndarray2 spec_float)
    (results : list nat) (bin_data : Np.ndarray2 spec_float) (n_registers : nat) :
  Np.wf bin_data ->
  Np.ncols bin_data = n_registers + 1 ->
  length results <= Np.nrows bin_data ->
  1 <= Np.nrows bin_data ->
  1 <= n_registers ->
  exists samples,
    generate_samples scaled_uniform results bin_data n_registers false = Ok samples /\
    forall sample : list spec_float,
      sample ∈ Np.rows samples <->
      exists idx value row,
        results !! idx = Some value /\ 0 < value /\
        Np.rows bin_data !! idx = Some row /\
        sample = List.map (fun x => F32.of_f64 (F64.add F64.zero x)) (drop 1 row).
Proof.
  intros Hwf Hcols Hlen Hne Hr. rewrite generate_samples_closed by done.
  eexists. split; [reflexivity|]. intros sample. cbn [Np.rows].
  apply elem_of_repeat_centres.
Qed.

Lemma X7_witness :
  exists samples,
    generate_samples (fun _ _ _ => Np.zeros 0 0) [0; 2]
      (Np.Array2 2 [[F64.zero; F64.half]; [F64.of_int 1; F64.half]]) 1 false
    = Ok samples /\
    forall sample : list spec_float,
      sample ∈ Np.rows samples <->
      exists idx value row,
        [0; 2] !! idx = Some value /\ 0 < value /\
        [[F64.zero; F64.half]; [F64.of_int 1; F64.half]] !! idx = Some row /\
        sample = List.map (fun x => F32.of_f64 (F64.add F64.zero x)) (drop 1 row).
Proof.
  apply (X7_samples_come_from_measured_bins (fun _ _ _ => Np.zeros 0 0) [0; 2]
           (Np.Array2 2 [[F64.zero; F64.half]; [F64.of_int 1; F64.half]]) 1).
  - repeat constructor.
  - reflexivity.
  - vm_compute. lia.
  - vm_compute. lia.
  - lia.
Defined.

Import Itertools ItertoolsFacts Transformation DiscretizationFacts DiscretizationAux.
Import SamplingFacts.

(** X8.  The grid of [compute_discretization] is always accepted by the
    sample generators called with the same number of registers: for a
    histogram with one count per bin both return, with the same
    [sum(results)] rows of [n_registers] columns. *)
Theorem X8_grid_feeds_generators
    (uninit : nat -> nat -> spec_float)
    (scaled_uniform : nat -> nat -> nat -> Np.ndarray2 spec_float)
    (n_qubits n_registers : nat) (results : list nat) :
  1 <= n_registers ->
  length results = (2 ^ (n_qubits / n_registers)) ^ n_registers ->
  exists bin_data samples,
    compute_discretization uninit n_qubits n_registers = Ok bin_data /\
    generate_samples scaled_uniform results bin_data n_registers false = Ok samples /\
    generate_samples_efficient scaled_uniform results bin_data n_registers false
    = Ok samples /\
    Np.nrows samples = sum_list results /\
    Np.ncols samples = n_registers.
Proof.
  intros Hr Hlen. rewrite compute_discretization_closed by lia.
  set (n := 2 ^ (n_qubits / n_registers)) in *.
  assert (n <> 0) as Hn by (by apply Nat.pow_nonzero).
  set (bin_data := Np.Array2 _ _).
  assert (Np.wf bin_data) as Hwf.
  { unfold Np.wf, bin_data. cbn [Np.rows Np.ncols]. apply Forall_forall. intros row Hrow.
    apply list_elem_of_In, in_map_iff in Hrow as ([k coords] & <- & Hin).
    apply list_elem_of_In, enumerate_from_elem, product_elem in Hin as [Hl _]; [|done].
    simpl. rewrite length_map. lia. }
  assert (Np.nrows bin_data = n ^ n_registers) as Hrows.
  { unfold Np.nrows, bin_data, enumerate. cbn [Np.rows].
    by rewrite length_map, enumerate_from_length, product_length. }
  assert (1 <= n ^ n_registers) as Hpos.
  { assert (n ^ n_registers <> 0) by (by apply Nat.pow_nonzero). lia. }
  exists bin_data. eexists. split; [done|].
  rewrite generate_samples_closed, generate_samples_efficient_closed
    by (done || lia).
  split; [reflexivity|]. split.
  - f_equal. f_equal. unfold repeat_centres. f_equal.
    apply zip_with_ext; [|done..]. intros v row. f_equal.
    apply map_ext. intros x. by rewrite add_zero_l_r.
  - unfold Np.nrows at 1. cbn [Np.rows Np.ncols]. split; [|done].
    apply repeat_centres_length. unfold Np.nrows in Hrows. lia.
Qed.

Lemma X8_witness :
  exists bin_data samples,
    compute_discretization (fun _ _ => S754_nan) 2 2 = Ok bin_data /\
    generate_samples (fun _ _ _ => Np.zeros 0 0) [1; 0; 2; 1] bin_data 2 false
    = Ok samples /\
    generate_samples_efficient (fun _ _ _ => Np.zeros 0 0) [1; 0; 2; 1] bin_data 2 false
    = Ok samples /\
    Np.nrows samples = sum_list [1; 0; 2; 1] /\
    Np.ncols samples = 2.
Proof.
  apply (X8_grid_feeds_generators (fun _ _ => S754_nan) (fun _ _ _ => Np.zeros 0 0)
           2 2 [1; 0; 2; 1]).
  - lia.
  - reflexivity.
Defined.

(** ** Further properties of postprocess *)

(** X9.  In the dictionary [postprocess] returns, "Transformation" is
    [True] whatever [reverse_transform] had stored there, "inference" is the
    one of [input_data] when it has one and the one of [reverse_transform]
    otherwise, and every other key is as [reverse_transform] returned it. *)
Theorem X9_postprocess_keys
    (Time : Type) (start_time_measurement : unit -> Time)
    (end_time_measurement : Time -> Time)
    (self : class) (input_data config d : dict) :
  reverse_transform self input_data = Ok (VDict d) ->
  exists (d' : dict) (time : Time),
    postprocess Time start_time_measurement end_time_measurement self input_data config
    = Ok (VDict d', time) /\
    d' !! "Transformation" = Some (VBool true) /\
    d' !! "inference"
    = (match input_data !! "inference" with
       | Some inference => Some inference
       | None => d !! "inference"
       end) /\
    (forall key : string,
       key <> "Transformation" -> key <> "inference" -> d' !! key = d !! key).
Proof.
  intros Hrt. unfold postprocess. rewrite Hrt. cbn [mbind result_bind setitem].
  destruct (input_data !! "inference") as [inference|]; cbn [mbind result_bind setitem];
    eexists _, _; (split; [reflexivity|]).
  - split; [by rewrite lookup_insert_ne, lookup_insert_eq|].
    split; [by rewrite lookup_insert_eq|].
    intros key H1 H2. by rewrite !lookup_insert_ne.
  - split; [by rewrite lookup_insert_eq|].
    split; [by rewrite lookup_insert_ne|].
    intros key H1 H2. by rewrite lookup_insert_ne.
Qed.

Lemma X9_witness :
  exists (d' : dict) (time : nat),
    postprocess nat (fun _ => 0) (fun start => start)
      {| transform := fun _ _ => Ok VNone;
         reverse_transform := fun solution => Ok (VDict solution) |}
      (<["inference" := VInt 7]> (<["Transformation" := VBool false]> ∅)) ∅
    = Ok (VDict d', time) /\
    d' !! "Transformation" = Some (VBool true) /\
    d' !! "inference"
    = (match (<["inference" := VInt 7]> (<["Transformation" := VBool false]> (∅ : dict)))
               !! "inference" with
       | Some inference => Some inference
       | None => (<["inference" := VInt 7]> (<["Transformation" := VBool false]> (∅ : dict)))
                   !! "inference"
       end) /\
    (forall key : string,
       key <> "Transformation" -> key <> "inference" ->
       d' !! key
       = (<["inference" := VInt 7]> (<["Transformation" := VBool false]> (∅ : dict))) !! key).
Proof.
  apply (X9_postprocess_keys nat (fun _ => 0) (fun start => start)
           {| transform := fun _ _ => Ok VNone;
              reverse_transform := fun solution => Ok (VDict solution) |}
           (<["inference" := VInt 7]> (<["Transformation" := VBool false]> ∅)) ∅).
  reflexivity.
Defined.

(** X10.  [postprocess] fails in two ways only: with the exception
    [reverse_transform] raised, or with [TypeError] when [reverse_transform]
    returned something that is not a dictionary.  The timer and the
    "inference" key never make it fail. *)
Theorem X10_postprocess_failures
    (Time : Type) (start_time_measurement : unit -> Time)
    (end_time_measurement : Time -> Time)
    (self : class) (input_data config : dict) (e : exn) :
  postprocess Time start_time_measurement end_time_measurement self input_data config
  = Raise e
  <-> reverse_transform self input_data = Raise e \/
      (e = TypeError /\
       exists v, reverse_transform self input_data = Ok v /\ forall d, v <> VDict d).
Proof.
  unfold postprocess.
  destruct (reverse_transform self input_data) as [v|e'] eqn:Hrt;
    cbn [mbind result_bind].
  - destruct v as [| | | | | |d]; cbn [mbind result_bind setitem];
      try (split; [intros [= <-]; right; split; [done|]; eexists; split; [done|]; by intros d
                  |by intros [?|[-> _]]]).
    destruct (input_data !! "inference"); cbn [mbind result_bind setitem].
    + split; [done|]. intros [?|(_ & w & [= <-] & Hw)]; [done|]. by destruct (Hw d).
    + split; [done|]. intros [?|(_ & w & [= <-] & Hw)]; [done|]. by destruct (Hw d).
  - split; [intros [= <-]; by left|]. intros [[= <-]|(_ & w & ? & _)]; done.
Qed.

(** ** Further properties of the Ising mapping *)

Module IsingEdges.
Import Itertools Ising PulpFacts ExtractFacts.

Lemma term_in_range_dec n term : {term_in_range n term} + {~ term_in_range n term}.
Proof.
  unfold term_in_range. destruct (z_positions term.1) as [|i [|k [|? ?]]].
  - by left.
  - apply (decide (i < n)).
  - apply (decide (i < n /\ k < n)).
  - by left.
Qed.

Lemma locate_from_lower {A} (pred : A -> bool) s l :
  Forall (fun x => s <= x) (locate_from pred s l).
Proof.
  revert s. induction l as [|a l IH]; intros s; simpl; [constructor|].
  assert (Forall (fun x => s <= x) (locate_from pred (S s) l)).
  { eapply Forall_impl; [apply IH|]. simpl. intros; lia. }
  destruct (pred a); [constructor; [lia|done]|done].
Qed.

Lemma locate_from_increasing {A} (pred : A -> bool) s l i rest :
  locate_from pred s l = i :: rest -> Forall (fun x => i < x) rest.
Proof.
  revert s. induction l as [|a l IH]; intros s; simpl; [done|].
  destruct (pred a).
  - intros [= <- <-]. eapply Forall_impl; [apply (locate_from_lower pred (S s))|].
    simpl. intros; lia.
  - apply IH.
Qed.

Lemma z_positions_pair_ordered p i k : z_positions p = [i; k] -> i < k.
Proof.
  intros Hz. apply locate_from_increasing in Hz. by apply Forall_inv in Hz.
Qed.

Lemma record_term_in_range n t j term :
  length t = n -> length j = n -> Forall (fun row => length row = n) j ->
  term_in_range n term ->
  exists t' j',
    record_term (t, j) term = Ok (t', j') /\
    length t' = n /\ length j' = n /\ Forall (fun row => length row = n) j'.
Proof.
  intros Ht Hj Hrows Hin. destruct term as [p c]. unfold term_in_range in Hin.
  unfold record_term. cbn [fst] in Hin.
  destruct (z_positions p) as [|i [|k [|? ?]]]; try by exists t, j.
  - unfold setitem_index. rewrite decide_True by lia. cbn [mbind result_bind].
    exists (<[i := c]> t), j. by rewrite length_insert.
  - destruct Hin as [Hi Hk]. unfold setitem_index2, setitem_index.
    destruct (lookup_lt_is_Some_2 j i ltac:(lia)) as [row Hrow]. rewrite Hrow.
    assert (length row = n) as Hrl.
    { rewrite Forall_forall in Hrows. apply Hrows. by eapply list_elem_of_lookup_2. }
    rewrite decide_True by lia. cbn [mbind result_bind].
    exists t, (<[i := <[k := c]> row]> j). rewrite length_insert.
    repeat split; try done. apply Forall_insert; [done|]. by rewrite length_insert.
Qed.

Lemma record_term_out_of_range n t j term :
  length t = n -> length j = n -> Forall (fun row => length row = n) j ->
  ~ term_in_range n term ->
  record_term (t, j) term = Raise IndexError.
Proof.
  intros Ht Hj Hrows Hout. destruct term as [p c]. unfold term_in_range in Hout.
  unfold record_term. cbn [fst] in Hout.
  destruct (z_positions p) as [|i [|k [|? ?]]]; try done.
  - unfold setitem_index. by rewrite decide_False by lia.
  - unfold setitem_index2, setitem_index.
    destruct (j !! i) as [row|] eqn:Hrow; [|done].
    assert (length row = n) as Hrl.
    { rewrite Forall_forall in Hrows. apply Hrows. by eapply list_elem_of_lookup_2. }
    apply lookup_lt_Some in Hrow.
    rewrite decide_False; [done|]. intros Hk. apply Hout. lia.
Qed.

Lemma record_terms_outcome n terms :
  forall t j,
    length t = n -> length j = n -> Forall (fun row => length row = n) j ->
    (Forall (term_in_range n) terms ->
     exists out, for_loop record_term terms (t, j) = Ok out) /\
    (~ Forall (term_in_range n) terms ->
     for_loop record_term terms (t, j) = Raise IndexError).
Proof.
  induction terms as [|term terms IH]; intros t j Ht Hj Hrows.
  - split; [by eexists|]. intros Hno. by destruct Hno.
  - cbn [for_loop]. destruct (term_in_range_dec n term) as [Hin|Hout].
    + destruct (record_term_in_range n t j term Ht Hj Hrows Hin)
        as (t' & j' & -> & Ht' & Hj' & Hrows').
      cbn [mbind result_bind]. destruct (IH t' j' Ht' Hj' Hrows') as [IH1 IH2].
      split.
      * intros Hall. apply IH1. by apply Forall_inv_tail in Hall.
      * intros Hno. apply IH2. intros Hall. apply Hno. by constructor.
    + rewrite (record_term_out_of_range n t j term Ht Hj Hrows Hout).
      split; [|done]. intros Hall. by apply Forall_inv in Hall.
Qed.
End IsingEdges.

Import Itertools Ising PulpFacts ExtractFacts IsingEdges.

(** X11.  A name is a key of the dictionary built from a coefficient list
    exactly when some coefficient carries it, so the dictionary never has
    more entries than the list. *)
Theorem X11_arguments_keys (coefficients : list coefficient_dict) :
  (forall name : string,
     is_Some (arguments_of coefficients !! name)
     <-> name ∈ coef_name <$> coefficients) /\
  size (arguments_of coefficients) <= length coefficients.
Proof.
  induction coefficients as [|arg coefficients [IH1 IH2]] using rev_ind.
  - split; [|done]. intros name. unfold arguments_of. simpl.
    rewrite lookup_empty. split; [by intros [? ?]|by intros ?%elem_of_nil].
  - rewrite arguments_of_snoc. split.
    + intros name. rewrite fmap_app, elem_of_app. cbn [fmap list_fmap].
      rewrite list_elem_of_singleton.
      destruct (decide (coef_name arg = name)) as [->|Hne].
      * rewrite lookup_insert_eq. split; [by right|by eexists].
      * rewrite lookup_insert_ne by done. rewrite IH1. split; [by left|].
        by intros [?|?].
    + rewrite length_app. simpl.
      destruct (arguments_of coefficients !! coef_name arg) eqn:Hl.
      * rewrite map_size_insert_Some by done. lia.
      * rewrite map_size_insert_None by done. lia.
Qed.

(** X12.  When several terms of the operator have their Z's at the same
    positions, [Ising.map] keeps the coefficient of the last one: entries
    are overwritten, not added up.  [t[i]] is the coefficient of the last
    term whose only Z is at [i], [J[i][k]] that of the last term with Z's
    exactly at [i] and [k], and zero when there is no such term. *)
Theorem X12_map_last_term_wins
    (convert : QuadraticProgram -> QuadraticProgram)
    (to_ising : QuadraticProgram -> PauliSumOp * number)
    (Time : Type) (start_time_measurement : unit -> Time)
    (end_time_measurement : Time -> Time)
    (self : self_state) (problem : problem_dict) (config : dict) :
  let qubitOp := (to_ising (convert (map_pulp_to_qiskit problem))).1 in
  let n := num_qubits qubitOp in
  Forall (fun term => String.length term.1 = n) (terms qubitOp) ->
  exists self' t j time,
    map convert to_ising Time start_time_measurement end_time_measurement
      self problem config
    = Ok (self', (<["J" := Matrix j]> (<["t" := Vector t]> ∅), time)) /\
    (forall i, i < n -> t !! i = Some (last_coefficient (terms qubitOp) [i])) /\
    (forall i k, i < n -> k < n ->
       j !! i ≫= (fun row => row !! k)
       = Some (last_coefficient (terms qubitOp) [i; k])).
Proof.
  intros qubitOp n Hlen.
  destruct (extract_last_wins n (terms qubitOp) Hlen)
    as (t & j & Hrun & Ht & Hj & Hrows & Htv & Hjv).
  unfold map, extract. fold qubitOp n. rewrite Hrun. cbn [mbind result_bind].
  by eexists _, t, j, _.
Qed.

Lemma X12_witness :
  let convert := fun qp : QuadraticProgram => qp in
  let to_ising := fun _ : QuadraticProgram =>
    ({| num_qubits := 2;
        terms := [("IZ"%string, (F64.half, F64.zero));
                  ("IZ"%string, (F64.of_int 1, F64.zero))] |}, Qc_of_Z 0) in
  let problem := {| variables := []; objective_coefficients := [];
                    parameters_sense := 1%Z; constraints := [] |} in
  let qubitOp := (to_ising (convert (map_pulp_to_qiskit problem))).1 in
  exists self' t j time,
    map convert to_ising nat (fun _ => 0) (fun start => start) new_Ising problem ∅
    = Ok (self', (<["J" := Matrix j]> (<["t" := Vector t]> ∅), time)) /\
    (forall i, i < 2 -> t !! i = Some (last_coefficient (terms qubitOp) [i])) /\
    (forall i k, i < 2 -> k < 2 ->
       j !! i ≫= (fun row => row !! k)
       = Some (last_coefficient (terms qubitOp) [i; k])).
Proof.
  intros convert to_ising problem qubitOp.
  apply (X12_map_last_term_wins convert to_ising nat (fun _ => 0) (fun start => start)
           new_Ising problem ∅).
  repeat constructor.
Defined.

(** X13.  The matrix [J] returned by [Ising.map] is strictly upper
    triangular: a two-Z term is stored at (first position, second
    position), so the diagonal and everything below it stay zero. *)
Theorem X13_J_strictly_upper_triangular
    (convert : QuadraticProgram -> QuadraticProgram)
    (to_ising : QuadraticProgram -> PauliSumOp * number)
    (Time : Type) (start_time_measurement : unit -> Time)
    (end_time_measurement : Time -> Time)
    (self : self_state) (problem : problem_dict) (config : dict) :
  let qubitOp := (to_ising (convert (map_pulp_to_qiskit problem))).1 in
  let n := num_qubits qubitOp in
  Forall (fun term => String.length term.1 = n) (terms qubitOp) ->
  exists self' t j time,
    map convert to_ising Time start_time_measurement end_time_measurement
      self problem config
    = Ok (self', (<["J" := Matrix j]> (<["t" := Vector t]> ∅), time)) /\
    forall i k, i < n -> k <= i ->
      j !! i ≫= (fun row => row !! k) = Some complex_zero.
Proof.
  intros qubitOp n Hlen.
  destruct (extract_last_wins n (terms qubitOp) Hlen)
    as (t & j & Hrun & Ht & Hj & Hrows & Htv & Hjv).
  unfold map, extract. fold qubitOp n. rewrite Hrun. cbn [mbind result_bind].
  eexists _, t, j, _. split; [reflexivity|].
  intros i k Hi Hk. rewrite Hjv by lia. f_equal.
  apply last_coefficient_none. intros p c _ Hz.
  apply z_positions_pair_ordered in Hz. lia.
Qed.

Lemma X13_witness :
  let convert := fun qp : QuadraticProgram => qp in
  let to_ising := fun _ : QuadraticProgram =>
    ({| num_qubits := 2;
        terms := [("ZZ"%string, (F64.half, F64.zero));
                  ("ZI"%string, (F64.of_int 1, F64.zero))] |}, Qc_of_Z 0) in
  let problem := {| variables := []; objective_coefficients := [];
                    parameters_sense := 1%Z; constraints := [] |} in
  exists self' t j time,
    map convert to_ising nat (fun _ => 0) (fun start => start) new_Ising problem ∅
    = Ok (self', (<["J" := Matrix j]> (<["t" := Vector t]> ∅), time)) /\
    forall i k, i < 2 -> k <= i ->
      j !! i ≫= (fun row => row !! k) = Some complex_zero.
Proof.
  intros convert to_ising problem.
  apply (X13_J_strictly_upper_triangular convert to_ising nat (fun _ => 0)
           (fun start => start) new_Ising problem ∅).
  repeat constructor.
Defined.

(** X14.  [Ising.map] returns exactly when every term with one or two Z's
    has them at positions below [num_qubits]; otherwise the assignment into
    [t_matrix] or [j_matrix] raises [IndexError].  Terms with no Z or with
    three and more never make it fail. *)
Theorem X14_map_index_errors
    (convert : QuadraticProgram -> QuadraticProgram)
    (to_ising : QuadraticProgram -> PauliSumOp * number)
    (Time : Type) (start_time_measurement : unit -> Time)
    (end_time_measurement : Time -> Time)
    (self : self_state) (problem : problem_dict) (config : dict) :
  let qubitOp := (to_ising (convert (map_pulp_to_qiskit problem))).1 in
  let run := map convert to_ising Time start_time_measurement end_time_measurement
               self problem config in
  (Forall (term_in_range (num_qubits qubitOp)) (terms qubitOp)
   <-> exists out, run = Ok out) /\
  (~ Forall (term_in_range (num_qubits qubitOp)) (terms qubitOp)
   <-> run = Raise IndexError).
Proof.
  intros qubitOp run.
  destruct (record_terms_outcome (num_qubits qubitOp) (terms qubitOp)
              (replicate (num_qubits qubitOp) complex_zero)
              (replicate (num_qubits qubitOp)
                 (replicate (num_qubits qubitOp) complex_zero)))
    as [Hok Hfail].
  { apply length_replicate. }
  { apply length_replicate. }
  { apply Forall_replicate, length_replicate. }
  assert (Forall (term_in_range (num_qubits qubitOp)) (terms qubitOp) ->
          exists out, run = Ok out) as Hok'.
  { intros Hall. destruct (Hok Hall) as [[t j] Hrun].
    unfold run, map, extract. fold qubitOp. rewrite Hrun. by eexists. }
  assert (~ Forall (term_in_range (num_qubits qubitOp)) (terms qubitOp) ->
          run = Raise IndexError) as Hfail'.
  { intros Hno. unfold run, map, extract. fold qubitOp. by rewrite (Hfail Hno). }
  destruct (List.Forall_dec (term_in_range (num_qubits qubitOp))
              (term_in_range_dec (num_qubits qubitOp)) (terms qubitOp)) as [Hall|Hno].
  - split; [split; [done|by intros _]|].
    split; [done|]. intros Hrun. destruct (Hok' Hall) as [out Hout]. congruence.
  - split; [|split; [done|by intros _]].
    split; [done|]. intros [out Hout]. rewrite (Hfail' Hno) in Hout. done.
Qed.




(** ** reverse_map and get_default_submodule *)

Module ReverseFacts.
Import Ising.

Lemma bit_in_range_dec n item : {bit_in_range n item} + {~ bit_in_range n item}.
Proof.
  unfold bit_in_range. destruct (decide (0 < item.2)%Z) as [Hv|Hv].
  - destruct (decide (item.1 < n)); [by left|]. right. intros Himp. by apply n0, Himp.
  - left. by intros ?.
Qed.

Lemma record_bit_names names status variables objective_value bit v :
  bit_in_range (length names) (bit, v) ->
  record_bit (VList (VStr <$> names)) (status, variables, objective_value) (bit, v)
  = Returns
      (match assignments names [(bit, v)] with
       | [] => (status, variables, objective_value)
       | (name, w) :: _ => (VStr "Optimal", <[name := w]> variables, (objective_value + w)%Z)
       end).
Proof.
  intros Hin. unfold record_bit, assignments, bit_in_range in *. cbn [omap list_omap fst snd] in *.
  destruct (Z.ltb_spec 0 v) as [Hv|Hv]; [|done].
  destruct (lookup_lt_is_Some_2 names bit (Hin Hv)) as [name Hname].
  unfold getitem_int. rewrite list_lookup_fmap, Hname. cbn [fmap option_fmap option_map mbind outcome_bind].
  by destruct (has_x name).
Qed.

Lemma record_bit_out_of_range names state item :
  ~ bit_in_range (length names) item ->
  record_bit (VList (VStr <$> names)) state item = Raises (Builtin IndexError).
Proof.
  destruct state as [[status variables] objective_value], item as [bit v].
  unfold bit_in_range, record_bit. cbn [fst snd]. intros Hout.
  destruct (Z.ltb_spec 0 v) as [Hv|Hv]; [|destruct Hout; intros; lia].
  unfold getitem_int. rewrite lookup_ge_None_2; [done|].
  rewrite length_fmap. destruct (decide (bit < length names)); [|lia].
  by destruct Hout.
Qed.

(** The loop of [reverse_map] over a solution whose positive bits all name
    a variable. *)
Lemma record_bits_names names solution :
  forall status variables objective_value,
    Forall (bit_in_range (length names)) solution ->
    for_each (record_bit (VList (VStr <$> names))) solution
      (status, variables, objective_value)
    = Returns
        (match assignments names solution with
         | [] => status
         | _ => VStr "Optimal"
         end,
         foldl (fun m a => <[a.1 := a.2]> m) variables (assignments names solution),
         (objective_value + foldr Z.add 0 (snd <$> assignments names solution))%Z).
Proof.
  induction solution as [|[bit v] solution IH]; intros status variables objective_value Hall.
  - simpl. by rewrite Z.add_0_r.
  - apply Forall_cons in Hall as [Hin Hall]. cbn [for_each].
    rewrite record_bit_names by done. cbn [mbind outcome_bind].
    assert (assignments names ((bit, v) :: solution)
            = assignments names [(bit, v)] ++ assignments names solution) as ->.
    { unfold assignments. cbn [omap list_omap]. by destruct (if (0 <? _)%Z then _ else _). }
    destruct (assignments names [(bit, v)]) as [|[name w] rest] eqn:Hone.
    + rewrite IH by done. done.
    + assert (rest = []) as ->.
      { unfold assignments in Hone. cbn [omap list_omap] in Hone.
        destruct (if (0 <? _)%Z then _ else _); by inversion Hone. }
      rewrite IH by done. cbn [app foldl fmap list_fmap foldr fst snd].
      f_equal. f_equal; [|lia]. f_equal. by destruct (assignments names solution).
Qed.

Lemma record_bits_outcome names solution :
  forall state,
    (Forall (bit_in_range (length names)) solution ->
     exists out, for_each (record_bit (VList (VStr <$> names))) solution state
                 = Returns out) /\
    (~ Forall (bit_in_range (length names)) solution ->
     for_each (record_bit (VList (VStr <$> names))) solution state
     = Raises (Builtin IndexError)).
Proof.
  induction solution as [|item solution IH]; intros state.
  - split; [by eexists|]. intros Hno. by destruct Hno.
  - cbn [for_each]. destruct (bit_in_range_dec (length names) item) as [Hin|Hout].
    + destruct state as [[status variables] objective_value], item as [bit v].
      rewrite record_bit_names by done. cbn [mbind outcome_bind].
      match goal with |- context [for_each _ solution ?s] => destruct (IH s) as [IH1 IH2] end.
      split.
      * intros Hall. apply IH1. by apply Forall_inv_tail in Hall.
      * intros Hno. apply IH2. intros Hall. apply Hno. by constructor.
    + rewrite record_bit_out_of_range by done. split; [|done].
      intros Hall. by apply Forall_inv in Hall.
Qed.

Lemma record_bit_unset z state bit v :
  record_bit (VInt z) state (bit, v)
  = if (0 <? v)%Z then Raises (Builtin TypeError) else Returns state.
Proof.
  destruct state as [[status variables] objective_value]. unfold record_bit.
  by destruct (0 <? v)%Z.
Qed.

Lemma record_bits_unset z solution :
  forall state,
    (Forall (fun item : nat * Z => (item.2 <= 0)%Z) solution ->
     for_each (record_bit (VInt z)) solution state = Returns state) /\
    (~ Forall (fun item : nat * Z => (item.2 <= 0)%Z) solution ->
     for_each (record_bit (VInt z)) solution state = Raises (Builtin TypeError)).
Proof.
  induction solution as [|[bit v] solution IH]; intros state.
  - split; [done|]. intros Hno. by destruct Hno.
  - cbn [for_each]. rewrite record_bit_unset.
    destruct (Z.ltb_spec 0 v) as [Hv|Hv]; cbn [mbind outcome_bind].
    + split; [|done].
      intros Hall. apply Forall_inv in Hall. simpl in Hall. lia.
    + destruct (IH state) as [IH1 IH2]. split.
      * intros Hall. apply IH1. by apply Forall_inv_tail in Hall.
      * intros Hno. apply IH2. intros Hall. apply Hno. by constructor.
Qed.

Lemma elem_of_assignments names solution name v :
  (name, v) ∈ assignments names solution <->
  exists bit, (bit, v) ∈ solution /\ (0 < v)%Z /\ names !! bit = Some name /\
              has_x name = true.
Proof.
  unfold assignments. rewrite list_elem_of_omap. split.
  - intros ([bit w] & Hin & Hsome). cbn [fst snd] in Hsome.
    destruct (Z.ltb_spec 0 w) as [Hw|Hw]; [|done].
    destruct (names !! bit) as [name'|] eqn:Hn; [|done].
    destruct (has_x name') eqn:Hx; [|done]. injection Hsome as <- <-.
    by exists bit.
  - intros (bit & Hin & Hv & Hn & Hx). exists (bit, v). split; [done|].
    cbn [fst snd]. rewrite Hn, Hx. by destruct (Z.ltb_spec 0 v); [|lia].
Qed.

Lemma foldl_insert_lookup (l : list (string * Z)) :
  forall (m : gmap string Z) name v,
    foldl (fun m a => <[a.1 := a.2]> m) m l !! name = Some v ->
    (name, v) ∈ l \/ m !! name = Some v.
Proof.
  induction l as [|[k w] l IH]; intros m name v Hl; [by right|].
  cbn [foldl fst snd] in Hl. apply IH in Hl as [Hin|Hm].
  - left. by right.
  - destruct (decide (k = name)) as [->|Hne].
    + rewrite lookup_insert_eq in Hm. injection Hm as ->. left. by left.
    + rewrite lookup_insert_ne in Hm by done. by right.
Qed.

Lemma foldl_insert_nonempty (l : list (string * Z)) (m : gmap string Z) :
  l <> [] -> foldl (fun m a => <[a.1 := a.2]> m) m l <> ∅.
Proof.
  intros Hl Hempty. destruct l as [|a l _] using rev_ind; [done|].
  rewrite foldl_app in Hempty. cbn [foldl] in Hempty.
  by apply insert_non_empty in Hempty.
Qed.

Lemma assignments_sum_positive names solution :
  assignments names solution <> [] ->
  (0 < foldr Z.add 0 (snd <$> assignments names solution))%Z.
Proof.
  assert (Forall (fun a : string * Z => (0 < a.2)%Z) (assignments names solution)) as Hpos.
  { apply Forall_forall. intros [name v] Hin.
    by apply elem_of_assignments in Hin as (bit & _ & Hv & _). }
  induction Hpos as [|a l Ha Hl IH]; [done|]. intros _. cbn [fmap list_fmap foldr].
  destruct l as [|b l]; [simpl; lia|]. specialize (IH ltac:(done)). lia.
Qed.
End ReverseFacts.

Import Ising ReverseFacts.

(** X17.  Once [global_variables] holds the variable names and every bit
    with a positive value names one of them, [reverse_map] returns the
    dictionary with "status", "variables" and "obj_value".  Every entry of
    "variables" is a positive value of the solution under a name that
    contains "x"; "obj_value" is the sum of the kept values; "status" is
    'Optimal' exactly when some variable was kept (then "obj_value" is
    positive) and stays [[0]] otherwise. *)
Theorem X17_reverse_map_assignments
    (Time : Type) (start_time_measurement : unit -> Time)
    (end_time_measurement : Time -> Time)
    (self : self_state) (names : list string) (solution : list (nat * Z)) :
  global_variables self = VList (VStr <$> names) ->
  Forall (bit_in_range (length names)) solution ->
  exists (status : value) (variables : gmap string Z) (obj_value : Z),
    reverse_map Time start_time_measurement end_time_measurement self solution
    = Returns (<["obj_value" := VInt obj_value]>
                 (<["variables" := VDict (VInt <$> variables)]>
                    (<["status" := status]> ∅)),
               end_time_measurement (start_time_measurement tt)) /\
    (forall name v, variables !! name = Some v ->
       (0 < v)%Z /\ has_x name = true /\
       exists bit, (bit, v) ∈ solution /\ names !! bit = Some name) /\
    obj_value = foldr Z.add 0%Z (snd <$> assignments names solution) /\
    (status = VStr "Optimal" <-> variables <> ∅) /\
    (variables = ∅ -> status = VList [VInt 0] /\ obj_value = 0%Z) /\
    (variables <> ∅ -> (0 < obj_value)%Z).
Proof.
  intros Hgv Hall. unfold reverse_map. rewrite Hgv.
  rewrite record_bits_names by done. cbn [mbind outcome_bind].
  eexists _, _, _. split; [reflexivity|].
  split; [|split; [by rewrite Z.add_0_l|]].
  - intros name v Hl. apply foldl_insert_lookup in Hl as [Hin|Hl]; [|done].
    apply elem_of_assignments in Hin as (bit & Hin & Hv & Hn & Hx). eauto.
  - destruct (assignments names solution) as [|a l] eqn:Ha.
    + cbn [foldl fmap list_fmap foldr]. split; [done|]. split; [done|by intros ?].
    + assert (foldl (fun m a => <[a.1 := a.2]> m) (∅ : gmap string Z) (a :: l) <> ∅)
        as Hne by (by apply foldl_insert_nonempty).
      split; [done|]. split; [done|]. intros _. rewrite Z.add_0_l, <- Ha.
      apply assignments_sum_positive. by rewrite Ha.
Qed.

Lemma X17_witness :
  exists (status : value) (variables : gmap string Z) (obj_value : Z),
    reverse_map nat (fun _ => 0) (fun start => start)
      {| submodule_options := []; global_variables := VList (VStr <$> ["x_0"; "s_1"; "x_2"]) |}
      [(0, 1%Z); (1, 1%Z); (2, (-1)%Z)]
    = Returns (<["obj_value" := VInt obj_value]>
                 (<["variables" := VDict (VInt <$> variables)]>
                    (<["status" := status]> ∅)), 0) /\
    (forall name v, variables !! name = Some v ->
       (0 < v)%Z /\ has_x name = true /\
       exists bit, (bit, v) ∈ [(0, 1%Z); (1, 1%Z); (2, (-1)%Z)] /\
                   ["x_0"; "s_1"; "x_2"] !! bit = Some name) /\
    obj_value = foldr Z.add 0%Z
                  (snd <$> assignments ["x_0"; "s_1"; "x_2"]
                             [(0, 1%Z); (1, 1%Z); (2, (-1)%Z)]) /\
    (status = VStr "Optimal" <-> variables <> ∅) /\
    (variables = ∅ -> status = VList [VInt 0] /\ obj_value = 0%Z) /\
    (variables <> ∅ -> (0 < obj_value)%Z).
Proof.
  apply (X17_reverse_map_assignments nat (fun _ => 0) (fun start => start)
           {| submodule_options := [];
              global_variables := VList (VStr <$> ["x_0"; "s_1"; "x_2"]) |}
           ["x_0"; "s_1"; "x_2"] [(0, 1%Z); (1, 1%Z); (2, (-1)%Z)]).
  - reflexivity.
  - repeat constructor; unfold bit_in_range; simpl; lia.
Defined.

(** X18.  On a freshly constructed [Ising], whose [global_variables] is
    still [0], [reverse_map] returns the empty result (status [[0]], no
    variables, objective 0) when no bit of the solution is positive, and
    raises [TypeError] as soon as one is: the names are only there after
    [map] has run. *)
Theorem X18_reverse_map_before_map
    (Time : Type) (start_time_measurement : unit -> Time)
    (end_time_measurement : Time -> Time) (solution : list (nat * Z)) :
  (Forall (fun item : nat * Z => (item.2 <= 0)%Z) solution ->
   reverse_map Time start_time_measurement end_time_measurement new_Ising solution
   = Returns (<["obj_value" := VInt 0]>
                (<["variables" := VDict ∅]> (<["status" := VList [VInt 0]]> ∅)),
              end_time_measurement (start_time_measurement tt))) /\
  (~ Forall (fun item : nat * Z => (item.2 <= 0)%Z) solution ->
   reverse_map Time start_time_measurement end_time_measurement new_Ising solution
   = Raises (Builtin TypeError)).
Proof.
  unfold reverse_map. cbn [global_variables new_Ising].
  destruct (record_bits_unset 0 solution (VList [VInt 0], ∅, 0%Z)) as [Hok Hfail].
  split.
  - intros Hall. rewrite (Hok Hall). cbn [mbind outcome_bind]. by rewrite fmap_empty.
  - intros Hno. by rewrite (Hfail Hno).
Qed.

(** X19.  With the variable names in place, [reverse_map] returns exactly
    when every bit with a positive value is an index into them, and raises
    [IndexError] otherwise; bits that are zero or negative are never looked
    up. *)
Theorem X19_reverse_map_index_errors
    (Time : Type) (start_time_measurement : unit -> Time)
    (end_time_measurement : Time -> Time)
    (self : self_state) (names : list string) (solution : list (nat * Z)) :
  global_variables self = VList (VStr <$> names) ->
  (Forall (bit_in_range (length names)) solution
   <-> exists out,
         reverse_map Time start_time_measurement end_time_measurement self solution
         = Returns out) /\
  (~ Forall (bit_in_range (length names)) solution
   <-> reverse_map Time start_time_measurement end_time_measurement self solution
       = Raises (Builtin IndexError)).
Proof.
  intros Hgv. unfold reverse_map. rewrite Hgv.
  destruct (record_bits_outcome names solution (VList [VInt 0], ∅, 0%Z)) as [Hok Hfail].
  destruct (List.Forall_dec _ (bit_in_range_dec (length names)) solution) as [Hall|Hno].
  - destruct (Hok Hall) as [[[status variables] objective_value] Hrun]. rewrite Hrun.
    cbn [mbind outcome_bind]. split; [split; [by eexists|done]|]. by split.
  - rewrite (Hfail Hno). cbn [mbind outcome_bind]. split; [|by split].
    split; [done|]. by intros [out ?].
Qed.

Lemma X19_witness :
  (Forall (bit_in_range (length ["x_0"])) [(3, 1%Z)]
   <-> exists out,
         reverse_map nat (fun _ => 0) (fun start => start)
           {| submodule_options := []; global_variables := VList (VStr <$> ["x_0"]) |}
           [(3, 1%Z)]
         = Returns out) /\
  (~ Forall (bit_in_range (length ["x_0"])) [(3, 1%Z)]
   <-> reverse_map nat (fun _ => 0) (fun start => start)
         {| submodule_options := []; global_variables := VList (VStr <$> ["x_0"]) |}
         [(3, 1%Z)]
       = Raises (Builtin IndexError)).
Proof.
  apply (X19_reverse_map_index_errors nat (fun _ => 0) (fun start => start)
           {| submodule_options := []; global_variables := VList (VStr <$> ["x_0"]) |}
           ["x_0"] [(3, 1%Z)]).
  reflexivity.
Defined.

(** X20.  [get_default_submodule] returns a solver exactly for the options
    the constructor lists in [submodule_options]; any other option raises
    [NotImplementedError] with the option spelled out in the message. *)
Theorem X20_default_submodule_options (option : string) :
  ((exists s, get_default_submodule option = Returns s)
   <-> option ∈ submodule_options new_Ising) /\
  (option ∉ submodule_options new_Ising ->
   get_default_submodule option
   = Raises (NotImplementedError
               (String.append "Solver Option " (String.append option " not implemented")))).
Proof.
  unfold get_default_submodule. cbn [submodule_options new_Ising].
  destruct (String.eqb_spec option "QAOA") as [->|H1].
  { split; [split; [intros _; by left|by eexists]|]. intros Hn. destruct Hn. by left. }
  destruct (String.eqb_spec option "QiskitQAOA") as [->|H2].
  { split; [split; [intros _; by right; left|by eexists]|].
    intros Hn. destruct Hn. by right; left. }
  split; [|done]. split; [by intros [s ?]|]. intros Hin.
  apply elem_of_cons in Hin as [?|Hin]; [done|].
  apply elem_of_cons in Hin as [?|Hin]; [done|]. by apply elem_of_nil in Hin.
Qed.

(** X21.  [map] leaves in [global_variables] what [reverse_map] needs:
    after a successful [map], [reverse_map] on the returned object returns
    for every solution whose positive bits index the variables of the QUBO,
    and it can no longer raise [TypeError]. *)
Theorem X21_map_then_reverse_map
    (convert : QuadraticProgram -> QuadraticProgram)
    (to_ising : QuadraticProgram -> PauliSumOp * number)
    (Time : Type) (start_time_measurement : unit -> Time)
    (end_time_measurement : Time -> Time)
    (self self' : self_state) (problem : problem_dict) (config : dict)
    (mapped : gmap string ising_array * Time) (solution : list (nat * Z)) :
  map convert to_ising Time start_time_measurement end_time_measurement
    self problem config = Ok (self', mapped) ->
  let n := length (qp_variables (convert (map_pulp_to_qiskit problem))) in
  (Forall (bit_in_range n) solution ->
   exists out,
     reverse_map Time start_time_measurement end_time_measurement self' solution
     = Returns out) /\
  reverse_map Time start_time_measurement end_time_measurement self' solution
  <> Raises (Builtin TypeError).
Proof.
  intros Hmap n. unfold map in Hmap.
  destruct (extract _) as [[t j]|e]; cbn [mbind result_bind] in Hmap; [|done].
  injection Hmap as <- _.
  set (names := List.map variable_name (qp_variables (convert (map_pulp_to_qiskit problem)))).
  assert (length names = n) as Hn by apply length_map.
  unfold reverse_map. cbn [global_variables].
  change (List.map VStr names) with (VStr <$> names).
  destruct (record_bits_outcome names solution (VList [VInt 0], ∅, 0%Z)) as [Hok Hfail].
  rewrite Hn in Hok, Hfail.
  destruct (List.Forall_dec _ (bit_in_range_dec n) solution) as [Hall|Hno].
  - destruct (Hok Hall) as [[[status variables] objective_value] Hrun]. rewrite Hrun.
    cbn [mbind outcome_bind]. split; [by eexists|done].
  - rewrite (Hfail Hno). cbn [mbind outcome_bind]. split; [done|]. by intros [=].
Qed.

Lemma X21_witness :
  let convert := fun qp : QuadraticProgram => qp in
  let to_ising := fun _ : QuadraticProgram =>
    ({| num_qubits := 1; terms := [("Z"%string, (F64.half, F64.zero))] |}, Qc_of_Z 0) in
  let problem :=
    {| variables := [{| var_name := "x_0"; var_cat := "Integer";
                        var_lowBound := Some (Qc_of_Z 0);
                        var_upBound := Some (Qc_of_Z 1) |}];
       objective_coefficients := []; parameters_sense := 1%Z; constraints := [] |} in
  let self' := {| submodule_options := ["QAOA"; "QiskitQAOA"];
                  global_variables := VList [VStr "x_0"] |} in
  let n := length (qp_variables (convert (map_pulp_to_qiskit problem))) in
  (Forall (bit_in_range n) [(0, 1%Z)] ->
   exists out,
     reverse_map nat (fun _ => 0) (fun start => start) self' [(0, 1%Z)] = Returns out) /\
  reverse_map nat (fun _ => 0) (fun start => start) self' [(0, 1%Z)]
  <> Raises (Builtin TypeError).
Proof.
  intros convert to_ising problem self'.
  apply (X21_map_then_reverse_map convert to_ising nat (fun _ => 0) (fun start => start)
           new_Ising self' problem ∅
           (<["J" := Matrix [[complex_zero]]]>
              (<["t" := Vector [(F64.half, F64.zero)]]> ∅), 0)
           [(0, 1%Z)]).
  reflexivity.
Defined.
